(** * Stencil: the template compiler of [stencil/__init__.py] and the code
      emitter of [stencil/builder.py], embedded in Rocq.

    Python strings are modelled as [string]: a character is a code point in
    the range U+0000..U+00FF.  Sets of names are [gset string], mappings are
    [gmap string _], Python integers are [Z].  Exceptions are values of
    [exn]; a computation that may raise returns a [result].

    The file has two parts.  The first holds the definitions: the string
    primitives of the host ([PyStr]), the lines of the generated program
    ([Py]), the code emitter ([Builder]), what the host's [exec] does with a
    generated program ([Host]), the compiler ([Stencil]) and the template
    object with [render] and [_do_dots] ([Runtime]).  The second holds the
    properties ([PyStrFacts], [StencilFacts], [RuntimeFacts]). *)

From Stdlib Require Import String Ascii List ZArith Lia Bool.
From stdpp Require Import base gmap strings list.

Set Warnings "-clear-no-such-hyp".

Open Scope string_scope.

(** ** Exceptions and results *)

Inductive exn : Type :=
| StencilError (msg : string)   (* class StencilError(Exception) *)
| SyntaxError                   (* raised by exec (IndentationError included) *)
| AssertionError                (* a failed assert *)
| IndexError                    (* words[0] on an empty list *)
| UnboundLocalError             (* a local read before it is assigned *)
| NameError                     (* a global that is not defined *)
| AttributeError                (* getattr found nothing *)
| OtherError (name : string).   (* any other exception class *)

Inductive result (A : Type) : Type :=
| Ok (a : A)
| Raise (e : exn).
Arguments Ok {A} a.
Arguments Raise {A} e.

Definition is_Ok {A} (r : result A) : bool :=
  match r with Ok _ => true | Raise _ => false end.

Definition rbind {A B} (r : result A) (k : A -> result B) : result B :=
  match r with Ok a => k a | Raise e => Raise e end.

(** ** Python string primitives used by the source *)

Module PyStr.

Definition dquote : ascii := ascii_of_nat 34.
Definition squote : ascii := ascii_of_nat 39.
Definition backslash : ascii := ascii_of_nat 92.
Definition newline : ascii := ascii_of_nat 10.

Definition chr (c : ascii) : string := String c EmptyString.

Definition is_empty (s : string) : bool :=
  match s with EmptyString => true | String _ _ => false end.

(** [c in s] for a one-character [c]. *)
Fixpoint contains (c : ascii) (s : string) : bool :=
  match s with
  | EmptyString => false
  | String d s' => if Ascii.eqb d c then true else contains c s'
  end.

(** [s.startswith(pre)]. *)
Fixpoint startswith (pre s : string) : bool :=
  match pre, s with
  | EmptyString, _ => true
  | String _ _, EmptyString => false
  | String a pre', String b s' => Ascii.eqb a b && startswith pre' s'
  end.

(** [s[n:]]. *)
Fixpoint drop (n : nat) (s : string) : string :=
  match n, s with
  | O, _ => s
  | S _, EmptyString => EmptyString
  | S n', String _ s' => drop n' s'
  end.

(** [s[:n]]. *)
Fixpoint take (n : nat) (s : string) : string :=
  match n, s with
  | O, _ => EmptyString
  | S _, EmptyString => EmptyString
  | S n', String c s' => String c (take n' s')
  end.

(** [s[2:-2]]: the characters from index 2 up to, not including, index
    [len(s) - 2]; empty when the string has fewer than five characters. *)
Definition slice_2_m2 (s : string) : string :=
  take (String.length s - 4) (drop 2 s).

(** [str.isspace] on one character of the modelled range. *)
Definition is_space (c : ascii) : bool :=
  let n := nat_of_ascii c in
  (((9 <=? n) && (n <=? 13)) || ((28 <=? n) && (n <=? 32))
  || (n =? 133) || (n =? 160))%nat.

Fixpoint lstrip (s : string) : string :=
  match s with
  | EmptyString => EmptyString
  | String c s' => if is_space c then lstrip s' else s
  end.

Fixpoint rstrip (s : string) : string :=
  match s with
  | EmptyString => EmptyString
  | String c s' =>
      let r := rstrip s' in
      if is_empty r && is_space c then EmptyString else String c r
  end.

(** [s.strip()]. *)
Definition strip (s : string) : string := rstrip (lstrip s).

(** [s.split()]: the maximal runs of non-whitespace characters, in order.
    [cur] is the word being read. *)
Fixpoint split_ws_from (cur : string) (s : string) : list string :=
  match s with
  | EmptyString => if is_empty cur then [] else [cur]
  | String c s' =>
      if is_space c
      then (if is_empty cur then split_ws_from EmptyString s'
            else cur :: split_ws_from EmptyString s')
      else split_ws_from (cur ++ chr c) s'
  end.

Definition split_ws (s : string) : list string := split_ws_from EmptyString s.

(** [s.split(sep)] for a one-character separator: never the empty list. *)
Fixpoint split_on (sep : ascii) (s : string) : list string :=
  match s with
  | EmptyString => [EmptyString]
  | String c s' =>
      if Ascii.eqb c sep then EmptyString :: split_on sep s'
      else match split_on sep s' with
           | w :: ws => String c w :: ws
           | [] => [chr c]
           end
  end.

(** [sep.join(parts)]. *)
Definition join (sep : string) (parts : list string) : string :=
  String.concat sep parts.

(** [' ' * n]: empty for [n <= 0]. *)
Fixpoint spaces_nat (n : nat) : string :=
  match n with O => EmptyString | S n' => String " " (spaces_nat n') end.
Definition spaces (n : Z) : string := spaces_nat (Z.to_nat n).

(** *** [repr] of a string *)

Definition hex_digit (n : nat) : ascii :=
  if (n <? 10)%nat then ascii_of_nat (48 + n) else ascii_of_nat (87 + n).

(** Characters [repr] writes as they are: the printable ones. *)
Definition is_printable (c : ascii) : bool :=
  let n := nat_of_ascii c in
  (((32 <=? n) && (n <=? 126)) || ((161 <=? n) && negb (n =? 173)))%nat.

Definition repr_char (quote : ascii) (c : ascii) : string :=
  let n := nat_of_ascii c in
  if Ascii.eqb c backslash then String backslash (chr backslash)
  else if Ascii.eqb c quote then String backslash (chr quote)
  else if (n =? 9)%nat then String backslash "t"
  else if (n =? 10)%nat then String backslash "n"
  else if (n =? 13)%nat then String backslash "r"
  else if is_printable c then chr c
  else String backslash
         (String "x" (String (hex_digit (n / 16)) (chr (hex_digit (n mod 16))))).

Fixpoint repr_body (quote : ascii) (s : string) : string :=
  match s with
  | EmptyString => EmptyString
  | String c s' => repr_char quote c ++ repr_body quote s'
  end.

(** [repr(s)]: single quotes, unless [s] has a single quote and no double
    quote. *)
Definition repr (s : string) : string :=
  let quote :=
    if contains squote s && negb (contains dquote s) then dquote else squote in
  chr quote ++ repr_body quote s ++ chr quote.

(** *** The identifier check of [_variable] *)

Definition is_ident_start (c : ascii) : bool :=
  let n := nat_of_ascii c in
  ((n =? 95) || ((97 <=? n) && (n <=? 122)) || ((65 <=? n) && (n <=? 90)))%nat.

Definition is_ident_char (c : ascii) : bool :=
  is_ident_start c || ((48 <=? nat_of_ascii c) && (nat_of_ascii c <=? 57))%nat.

(** What may follow the first character: identifier characters up to the
    end, where [$] also matches just before one final newline. *)
Fixpoint ident_tail (s : string) : bool :=
  match s with
  | EmptyString => true
  | String c s' =>
      if is_ident_char c then ident_tail s'
      else Ascii.eqb c newline && is_empty s'
  end.

(** [re.match(r'[_a-zA-Z][_a-zA-Z0-9]*$', name)] finds a match. *)
Definition ident_match (name : string) : bool :=
  match name with
  | EmptyString => false
  | String c s' => is_ident_start c && ident_tail s'
  end.

(** The pattern read as a whole-string match, for comparison. *)
Fixpoint all_ident_chars (s : string) : bool :=
  match s with
  | EmptyString => true
  | String c s' => is_ident_char c && all_ident_chars s'
  end.

Definition is_identifier (name : string) : bool :=
  match name with
  | EmptyString => false
  | String c s' => is_ident_start c && all_ident_chars s'
  end.

End PyStr.

(** ** The generated program

    [_compile_template] emits Python source text line by line.  Each line it
    can emit is a constructor of [line]; [line_text] gives the text the
    source's format string produces for it. *)

Module Py.
Import PyStr.

(** An entry of the output [buffer]: [repr(token)] for a literal token, or
    ['str({})'.format(expr)] for an expression. *)
Inductive frag : Type :=
| FLit (token : string)
| FStr (expr : string).

Definition frag_text (f : frag) : string :=
  match f with
  | FLit token => repr token
  | FStr expr => "str(" ++ expr ++ ")"
  end.

Inductive line : Type :=
| LDef                              (* 'def render(ctx, do_dots):' *)
| LResult                           (* 'result = []' *)
| LAppendAlias                      (* 'append = result.append' *)
| LExtendAlias                      (* 'extend = result.extend' *)
| LStrAlias                         (* 'str = str' *)
| LAppend (f : frag)                (* 'append({})'.format(buffer[0]) *)
| LExtend (fs : list frag)          (* 'extend([{}])'.format(', '.join(buffer)) *)
| LIf (expr : string)               (* 'if {}:'.format(expr) *)
| LFor (var expr : string)          (* 'for c_{} in {}:'.format(words[1], expr) *)
| LBind (name : string)             (* 'c_{0} = context{0!r}'.format(var_name) *)
| LReturn.                          (* "return ''.join(result)" *)

Definition line_text (l : line) : string :=
  match l with
  | LDef => "def render(ctx, do_dots):"
  | LResult => "result = []"
  | LAppendAlias => "append = result.append"
  | LExtendAlias => "extend = result.extend"
  | LStrAlias => "str = str"
  | LAppend f => "append(" ++ frag_text f ++ ")"
  | LExtend fs => "extend([" ++ join ", " (map frag_text fs) ++ "])"
  | LIf expr => "if " ++ expr ++ ":"
  | LFor var expr => "for c_" ++ var ++ " in " ++ expr ++ ":"
  | LBind name => "c_" ++ name ++ " = context" ++ repr name
  | LReturn => "return ''.join(result)"
  end.

End Py.

(** ** builder.py *)

Module Builder.
Import PyStr Py.

(** [_code] holds the three strings [add_line] extends it with (the
    indentation, the line, the newline), kept together as one [BLine], and
    the sub-builders [add_section] appends. *)
Inductive CodeBuilder : Type :=
| mkCodeBuilder (_indent : Z) (_code : list block) (INDENT_STEP : Z)
with block : Type :=
| BLine (indent : Z) (l : line)
| BSection (section : CodeBuilder).

Definition _indent (cb : CodeBuilder) : Z :=
  match cb with mkCodeBuilder i _ _ => i end.
Definition _code (cb : CodeBuilder) : list block :=
  match cb with mkCodeBuilder _ c _ => c end.
Definition INDENT_STEP (cb : CodeBuilder) : Z :=
  match cb with mkCodeBuilder _ _ s => s end.

(** [CodeBuilder(indent=indent)]; [indent_step] defaults to 4. *)
Definition new (indent : Z) : CodeBuilder := mkCodeBuilder indent [] 4.

(** [level]. *)
Definition level (cb : CodeBuilder) : Z := _indent cb.

Definition add_line (l : line) (cb : CodeBuilder) : CodeBuilder :=
  mkCodeBuilder (_indent cb) (_code cb ++ [BLine (_indent cb) l]) (INDENT_STEP cb).

Definition indent (cb : CodeBuilder) : CodeBuilder :=
  mkCodeBuilder (_indent cb + INDENT_STEP cb) (_code cb) (INDENT_STEP cb).

Definition dedent (cb : CodeBuilder) : CodeBuilder :=
  mkCodeBuilder (_indent cb - INDENT_STEP cb) (_code cb) (INDENT_STEP cb).

(** [add_section] appends a new sub-builder and returns it.  The caller
    keeps a reference to that object and writes to it later; here the
    reference is the position of the section in [_code]. *)
Definition add_section (cb : CodeBuilder) : nat * CodeBuilder :=
  (List.length (_code cb),
   mkCodeBuilder (_indent cb) (_code cb ++ [BSection (new (_indent cb))])
     (INDENT_STEP cb)).

(** [section.add_line(l)] through the reference [ref] held by the caller:
    the section object inside [cb] changes. *)
Definition section_add_line (ref : nat) (l : line) (cb : CodeBuilder)
  : CodeBuilder :=
  match _code cb !! ref with
  | Some (BSection sec) =>
      mkCodeBuilder (_indent cb) (<[ref := BSection (add_line l sec)]> (_code cb))
        (INDENT_STEP cb)
  | _ => cb
  end.

(** The lines of a builder in order, sections expanded in place: what
    [__str__] concatenates. *)
Fixpoint lines (cb : CodeBuilder) : list (Z * line) :=
  match cb with
  | mkCodeBuilder _ code _ =>
      (fix blocks (bs : list block) : list (Z * line) :=
         match bs with
         | [] => []
         | b :: bs' => (block_lines b ++ blocks bs')%list
         end) code
  end
with block_lines (b : block) : list (Z * line) :=
  match b with
  | BLine i l => [(i, l)]
  | BSection sec => lines sec
  end.

Definition entry_text (e : Z * line) : string :=
  spaces (fst e) ++ line_text (snd e) ++ chr newline.

(** [source], that is [__str__]. *)
Definition source (cb : CodeBuilder) : string :=
  String.concat EmptyString (map entry_text (lines cb)).

(** [add_line] for each line of [ls] in turn, on the builder itself and
    on the section behind the reference [ref]. *)
Definition add_lines (ls : list line) (cb : CodeBuilder) : CodeBuilder :=
  fold_left (fun c l => add_line l c) ls cb.

Definition section_add_lines (ref : nat) (ls : list line) (cb : CodeBuilder)
  : CodeBuilder :=
  fold_left (fun c l => section_add_line ref l c) ls cb.

(** A call on a builder that returns nothing: what the compiler does to
    [code] between reserving a section and writing to it. *)
Inductive call : Type :=
| AddLine (l : line)
| Indent
| Dedent.

Definition apply_call (c : call) (cb : CodeBuilder) : CodeBuilder :=
  match c with
  | AddLine l => add_line l cb
  | Indent => indent cb
  | Dedent => dedent cb
  end.

Definition apply_calls (cs : list call) (cb : CodeBuilder) : CodeBuilder :=
  fold_left (fun b c => apply_call c b) cs cb.

End Builder.

(** ** The host's [exec] on a generated program

    [get_globals] hands the source text to [exec] and takes the function
    [render] the text defines.  What [exec] does with the lines of [Py.line]
    is fixed by the host language:
    - [LBind] is not a statement: in [c_x = context'x'] a name is directly
      followed by a string literal, so compiling the text raises SyntaxError
      whatever else it holds;
    - a header ([def], [if], [for]) must be followed by a deeper line, and
      any other line must sit at the level of an enclosing block;
    - inside [render], every name the body assigns ([result], [append],
      [extend], [str]) is a local of the function from its first line on, and
      reading a local before it is assigned raises UnboundLocalError: this
      is what [str = str] does;
    - the names [c_...] are assigned only by [LBind] and [LFor]; where they
      are not locals they are looked up as globals, of which the program
      defines none but [render]. *)

Module Host.
Import PyStr Py.

Definition is_header (l : line) : bool :=
  match l with LDef | LIf _ | LFor _ _ => true | _ => false end.

Definition is_bind (l : line) : bool :=
  match l with LBind _ => true | _ => false end.

(** Closing blocks down to the width [w]: [None] when no open block has
    that width.  The head of [stack] is the innermost block. *)
Fixpoint unindent (stack : list Z) (w : Z) : option (list Z) :=
  match stack with
  | [] => None
  | top :: rest =>
      if (w =? top)%Z then Some stack
      else if (w <? top)%Z then unindent rest w
      else None
  end.

Fixpoint indent_ok (stack : list Z) (after_header : bool)
         (p : list (Z * line)) : bool :=
  match p with
  | [] => negb after_header
  | (i, l) :: p' =>
      let w := Z.max 0 i in
      if after_header then
        match stack with
        | top :: _ => (top <? w)%Z && indent_ok (w :: stack) (is_header l) p'
        | [] => false
        end
      else
        match unindent stack w with
        | Some stack' => indent_ok stack' (is_header l) p'
        | None => false
        end
  end.

Definition py_syntax_ok (p : list (Z * line)) : bool :=
  forallb (fun e => negb (is_bind (snd e))) p && indent_ok [0%Z] false p.

(** The function [render] a program defines: the statements of its body
    in order. *)
Definition renderer : Type := list line.

(** [exec(source, global_ns)] followed by [global_ns['render']]. *)
Definition py_exec (p : list (Z * line)) : result renderer :=
  if py_syntax_ok p then
    match p with
    | (_, LDef) :: body => Ok (map snd body)
    | _ => Raise (OtherError "KeyError")
    end
  else Raise SyntaxError.

(** The locals of one call of [render]: the list [result] once it is
    assigned, and which of [append], [extend], [str] are assigned. *)
Record frame : Type := mkFrame {
  f_result : option (list string);
  f_append : bool;
  f_extend : bool;
  f_str : bool
}.

Definition frame0 : frame := mkFrame None false false false.

(** Evaluating a buffer entry.  In [str(e)] the callee [str] is read
    first; then [e] reads a name [c_...], which nothing has bound. *)
Definition eval_frag (fr : frame) (f : frag) : result string :=
  match f with
  | FLit token => Ok token
  | FStr _ => if f_str fr then Raise NameError else Raise UnboundLocalError
  end.

Fixpoint eval_frags (fr : frame) (fs : list frag) : result (list string) :=
  match fs with
  | [] => Ok []
  | f :: fs' =>
      rbind (eval_frag fr f) (fun s =>
      rbind (eval_frags fr fs') (fun ss => Ok (s :: ss)))
  end.

(** One statement: the next frame, or the value returned ([inr]). *)
Definition exec_line (fr : frame) (l : line)
  : result (frame + option string) :=
  match l with
  | LDef => Ok (inl fr)
  | LResult => Ok (inl (mkFrame (Some []) (f_append fr) (f_extend fr) (f_str fr)))
  | LAppendAlias =>
      match f_result fr with
      | Some r => Ok (inl (mkFrame (Some r) true (f_extend fr) (f_str fr)))
      | None => Raise UnboundLocalError
      end
  | LExtendAlias =>
      match f_result fr with
      | Some r => Ok (inl (mkFrame (Some r) (f_append fr) true (f_str fr)))
      | None => Raise UnboundLocalError
      end
  | LStrAlias =>
      if f_str fr then Ok (inl fr) else Raise UnboundLocalError
  | LAppend f =>
      if f_append fr then
        rbind (eval_frag fr f) (fun s =>
        Ok (inl (mkFrame (option_map (fun r => r ++ [s])%list (f_result fr))
                   (f_append fr) (f_extend fr) (f_str fr))))
      else Raise UnboundLocalError
  | LExtend fs =>
      if f_extend fr then
        rbind (eval_frags fr fs) (fun ss =>
        Ok (inl (mkFrame (option_map (fun r => r ++ ss)%list (f_result fr))
                   (f_append fr) (f_extend fr) (f_str fr))))
      else Raise UnboundLocalError
  | LIf _ => Raise NameError
  | LFor _ _ => Raise NameError
  | LBind _ => Raise SyntaxError
  | LReturn =>
      match f_result fr with
      | Some r => Ok (inr (Some (String.concat EmptyString r)))
      | None => Raise UnboundLocalError
      end
  end.

(** Running a body: [None] is the host's [None], returned when the body
    ends without a [return]. *)
Fixpoint run (fr : frame) (body : list line) : result (option string) :=
  match body with
  | [] => Ok None
  | l :: body' =>
      match exec_line fr l with
      | Ok (inl fr') => run fr' body'
      | Ok (inr v) => Ok v
      | Raise e => Raise e
      end
  end.

(** [render(ctx, do_dots)]: both arguments are bound as parameters; the
    statements of the body are run in a fresh frame. *)
Definition call_renderer {C D : Type} (r : renderer) (ctx : C) (do_dots : D)
  : result (option string) :=
  run frame0 r.

(** [CodeBuilder.get_globals], followed by the caller's [['render']].  The
    [assert] is executed, as it is unless the interpreter runs with [-O]. *)
Definition get_globals (cb : Builder.CodeBuilder) : result renderer :=
  if (Builder._indent cb =? 0)%Z then py_exec (Builder.lines cb)
  else Raise AssertionError.

End Host.

(** ** stencil/__init__.py: compilation *)

Module Stencil.
Import PyStr Py Builder Host.

(** *** The tokenizer: [re.split] with the pattern of [_compile_template]

    The pattern is [(?s) ({{ .*? }} | {% .*? %} | {# .*? #})] and is
    compiled without the verbose flag, so each blank in it is a literal
    space.  A match is one space followed by the captured group, which is
    one of
    - ["{{ "], the shortest text that lets the rest match, [" }} "];
    - [" {% "], the shortest such text, [" %} "];
    - [" {# "], the shortest such text, [" #}"]. *)

(** Offset of the first place in [s] where [close] starts. *)
Fixpoint find_close (close : string) (s : string) : option nat :=
  if startswith close s then Some O
  else match s with
       | EmptyString => None
       | String _ s' => option_map S (find_close close s')
       end.

(** One alternative of the group, tried at the start of [s]: the captured
    text and its length. *)
Definition match_group (opener closer : string) (s : string)
  : option (string * nat) :=
  if startswith opener s then
    match find_close closer (drop (String.length opener) s) with
    | Some k =>
        let n := (String.length opener + k + String.length closer)%nat in
        Some (take n s, n)
    | None => None
    end
  else None.

(** The whole pattern tried at the start of [s]: the alternatives in the
    order of the pattern. *)
Definition match_at (s : string) : option (string * nat) :=
  match s with
  | String c s1 =>
      if Ascii.eqb c " " then
        match match_group "{{ " " }} " s1 with
        | Some m => Some m
        | None =>
            match match_group " {% " " %} " s1 with
            | Some m => Some m
            | None => match_group " {# " " #}" s1
            end
        end
      else None
  | EmptyString => None
  end.

(** The scan of [re.split]: [lit] is the text since the last match, [skip]
    the number of characters of the current match still to pass over. *)
Fixpoint split_scan (s : string) (skip : nat) (lit : string) : list string :=
  match s with
  | EmptyString => [lit]
  | String c s' =>
      match skip with
      | S k => split_scan s' k lit
      | O =>
          match match_at s with
          | Some (group, n) => lit :: group :: split_scan s' n EmptyString
          | None => split_scan s' O (lit ++ chr c)
          end
      end
  end.

Definition re_split (text : string) : list string :=
  split_scan text O EmptyString.

(** *** The state of a compilation

    [all_vars] and [loop_vars] are the sets of the [Template] under
    construction; the other fields are the locals of [_compile_template].
    [vars_code] is the reference to the section reserved in [code];
    [ops_stack] has its top at the head. *)
Record cstate : Type := mkState {
  all_vars : gset string;
  loop_vars : gset string;
  code : CodeBuilder;
  vars_code : nat;
  buffer : list frag;
  ops_stack : list string
}.

Definition set_all_vars (v : gset string) (st : cstate) : cstate :=
  mkState v (loop_vars st) (code st) (vars_code st) (buffer st) (ops_stack st).
Definition set_loop_vars (v : gset string) (st : cstate) : cstate :=
  mkState (all_vars st) v (code st) (vars_code st) (buffer st) (ops_stack st).
Definition set_code (c : CodeBuilder) (st : cstate) : cstate :=
  mkState (all_vars st) (loop_vars st) c (vars_code st) (buffer st) (ops_stack st).
Definition set_vars_code (r : nat) (st : cstate) : cstate :=
  mkState (all_vars st) (loop_vars st) (code st) r (buffer st) (ops_stack st).
Definition set_buffer (b : list frag) (st : cstate) : cstate :=
  mkState (all_vars st) (loop_vars st) (code st) (vars_code st) b (ops_stack st).
Definition set_ops_stack (s : list string) (st : cstate) : cstate :=
  mkState (all_vars st) (loop_vars st) (code st) (vars_code st) (buffer st) s.

(** *** State and exceptions *)

Definition M (A : Type) : Type := cstate -> result (A * cstate).

Definition ret {A} (a : A) : M A := fun st => Ok (a, st).

Definition bind {A B} (m : M A) (k : A -> M B) : M B :=
  fun st => match m st with
            | Ok (a, st') => k a st'
            | Raise e => Raise e
            end.

Definition raise {A} (e : exn) : M A := fun _ => Raise e.
Definition gets {A} (f : cstate -> A) : M A := fun st => Ok (f st, st).
Definition modify (f : cstate -> cstate) : M unit := fun st => Ok (tt, f st).
Definition lift {A} (r : result A) : M A :=
  fun st => match r with Ok a => Ok (a, st) | Raise e => Raise e end.

Declare Scope stencil_scope.
Delimit Scope stencil_scope with stencil.
Bind Scope stencil_scope with M.
Notation "x <- m ;; k" := (bind m (fun x => k))
  (at level 100, m at next level, right associativity) : stencil_scope.
Notation "m ;; k" := (bind m (fun _ => k))
  (at level 100, right associativity) : stencil_scope.
Open Scope stencil_scope.

(** [when b m]: [if b: m]. *)
Definition when (b : bool) (m : M unit) : M unit := if b then m else ret tt.

Fixpoint foldM {A B} (f : A -> B -> M A) (a : A) (l : list B) : M A :=
  match l with
  | [] => ret a
  | b :: l' => (a' <- f a b ;; foldM f a' l')
  end.

Fixpoint forM_ {B} (f : B -> M unit) (l : list B) : M unit :=
  match l with
  | [] => ret tt
  | b :: l' => (f b ;; forM_ f l')
  end.

(** Calls on the builder held in [code]. *)
Definition code_add_line (l : line) : M unit :=
  modify (fun st => set_code (add_line l (code st)) st).
Definition code_indent : M unit :=
  modify (fun st => set_code (indent (code st)) st).
Definition code_dedent : M unit :=
  modify (fun st => set_code (dedent (code st)) st).
Definition vars_code_add_line (l : line) : M unit :=
  modify (fun st => set_code (section_add_line (vars_code st) l (code st)) st).

(** *** [_error], [_variable], [_expr_code] *)

Definition _error (msg where_ : string) : M unit :=
  raise (StencilError (msg ++ ": " ++ repr where_)).

(** The set object passed to [_variable]. *)
Inductive vars_ref : Type := AllVars | LoopVars.

Definition vars_add (vars_set : vars_ref) (name : string) : M unit :=
  match vars_set with
  | AllVars => modify (fun st => set_all_vars ({[name]} ∪ all_vars st) st)
  | LoopVars => modify (fun st => set_loop_vars ({[name]} ∪ loop_vars st) st)
  end.

Definition _variable (name : string) (vars_set : vars_ref) : M unit :=
  when (negb (ident_match name)) (_error "invalid variable name" name) ;;
  vars_add vars_set name.

(** The body of [for func in pipes[1:]]. *)
Definition apply_filter (code func : string) : M string :=
  _variable func AllVars ;;
  ret ("c_" ++ func ++ "(" ++ code ++ ")").

(** [depth] bounds the nesting of the recursive calls; the calls nest at
    most three deep (see [_expr_code_rec_depth]). *)
Fixpoint _expr_code_rec (depth : nat) (expr : string) : M string :=
  match depth with
  | O => raise (OtherError "RecursionError")
  | S depth' =>
      if contains "|" expr then
        let pipes := split_on "|" expr in
        code <- _expr_code_rec depth' (hd EmptyString pipes) ;;
        foldM apply_filter code (tl pipes)
      else if contains "." expr then
        let dots := split_on "." expr in
        code <- _expr_code_rec depth' (hd EmptyString dots) ;;
        let args := join ", " (map repr (tl dots)) in
        ret ("do_dots(" ++ code ++ ", " ++ args ++ ")")
      else
        _variable expr AllVars ;;
        ret ("c_" ++ expr)
  end.

Definition _expr_code (expr : string) : M string := _expr_code_rec 3 expr.

(** The parts of an expression that reach [_variable]: the name before the
    first dot of the text before the first pipe, then the text between the
    pipes, in the order of the calls. *)
Definition checked_names (expr : string) : list string :=
  let pipes := split_on "|" expr in
  hd EmptyString (split_on "." (hd EmptyString pipes)) :: tl pipes.

(** The parts that are passed on as quoted arguments of [do_dots]. *)
Definition members (expr : string) : list string :=
  tl (split_on "." (hd EmptyString (split_on "|" expr))).

(** The text [_expr_code] builds when no call of [_variable] raises: for
    the part before the first pipe, then with the filters around it. *)
Definition base_text (base : string) : string :=
  let dots := split_on "." base in
  if contains "." base
  then "do_dots(c_" ++ hd EmptyString dots ++ ", "
         ++ join ", " (map repr (tl dots)) ++ ")"
  else "c_" ++ base.

Definition filter_calls (code : string) (filters : list string) : string :=
  fold_left (fun code func => "c_" ++ func ++ "(" ++ code ++ ")") filters code.

Definition expr_text (expr : string) : string :=
  let pipes := split_on "|" expr in
  filter_calls (base_text (hd EmptyString pipes)) (tl pipes).

(** The first of [names] that [_variable] refuses. *)
Definition first_refused (names : list string) : option string :=
  List.find (fun name => negb (ident_match name)) names.

(** *** [_compile_template] *)

(** The nested function [flush_output]. *)
Definition flush_output : M unit :=
  buf <- gets buffer ;;
  match buf with
  | [] => ret tt
  | [f] => code_add_line (LAppend f)
  | _ :: _ :: _ => code_add_line (LExtend buf)
  end ;;
  modify (set_buffer []).

Definition ops_push (kind : string) : M unit :=
  modify (fun st => set_ops_stack (kind :: ops_stack st) st).

(** [ops_stack.pop()]. *)
Definition ops_pop : M string :=
  stack <- gets ops_stack ;;
  match stack with
  | [] => raise IndexError
  | start :: rest => (modify (set_ops_stack rest) ;; ret start)
  end.

(** [words[i]]. *)
Definition word (i : nat) (words : list string) : M string :=
  match nth_error words i with
  | Some w => ret w
  | None => raise IndexError
  end.

Definition len (words : list string) : nat := List.length words.

(** The branch of the token loop for a token that starts with [{%].  In
    the [for] branch, the statements after the call of [_error] stand
    where the source has them: inside the [if] of the syntax check. *)
Definition compile_tag (token : string) : M unit :=
  flush_output ;;
  let words := split_ws (strip (slice_2_m2 token)) in
  w0 <- word 0 words ;;
  if String.eqb w0 "if" then
    when (negb (len words =? 2)%nat) (_error "invalid syntax: if" token) ;;
    ops_push "if" ;;
    w1 <- word 1 words ;;
    expr <- _expr_code w1 ;;
    code_add_line (LIf expr) ;;
    code_indent
  else if String.eqb w0 "for" then
    when (negb (len words =? 4)%nat
          || negb (String.eqb (nth 2 words EmptyString) "in"))
      (_error "invalid syntax: for" token ;;
       ops_push "for" ;;
       w1 <- word 1 words ;;
       _variable w1 LoopVars ;;
       w3 <- word 3 words ;;
       expr <- _expr_code w3 ;;
       code_add_line (LFor w1 expr) ;;
       code_indent)
  else if startswith "end" w0 then
    when (negb (len words =? 1)%nat) (_error "invalid syntax: end" token) ;;
    let end_ := drop 3 w0 in
    stack <- gets ops_stack ;;
    when (match stack with [] => true | _ => false end)
      (_error "no opening tag for end" token) ;;
    start <- ops_pop ;;
    when (negb (String.eqb start end_))
      (_error ("mismatched end tag, expected end" ++ start) end_) ;;
    code_dedent
  else
    _error "invalid tag" token.

(** The body of [for token in tokens]. *)
Definition compile_token (token : string) : M unit :=
  if startswith "{#" token then
    ret tt
  else if startswith "{{" token then
    expr <- _expr_code (strip (slice_2_m2 token)) ;;
    modify (fun st => set_buffer (buffer st ++ [FStr expr])%list st)
  else if startswith "{%" token then
    compile_tag token
  else
    when (negb (is_empty token))
      (modify (fun st => set_buffer (buffer st ++ [FLit token])%list st)).

(** Lines 75 to 95: the builder, the header of [render], the reserved
    section, the four first lines of the body, the empty buffer and the
    empty stack. *)
Definition preamble : M unit :=
  modify (set_code (Builder.new 0)) ;;
  code_add_line LDef ;;
  code_indent ;;
  modify (fun st =>
            let (ref, cb) := add_section (code st) in
            set_vars_code ref (set_code cb st)) ;;
  code_add_line LResult ;;
  code_add_line LAppendAlias ;;
  code_add_line LExtendAlias ;;
  code_add_line LStrAlias ;;
  modify (set_buffer []) ;;
  modify (set_ops_stack []).

(** Lines 96 to 141: the token loop. *)
Definition scan (text : string) : M unit :=
  preamble ;;
  forM_ compile_token (re_split text).

(** Lines 143 to 148.  The order in which a Python set is iterated is not
    fixed; [elements] stands for it. *)
Definition finish : M renderer :=
  names <- gets (fun st => elements (all_vars st ∖ loop_vars st)) ;;
  forM_ (fun var_name => vars_code_add_line (LBind var_name)) names ;;
  code_add_line LReturn ;;
  code_dedent ;;
  cb <- gets code ;;
  lift (get_globals cb).

Definition _compile_template (text : string) : M renderer :=
  scan text ;;
  finish.

(** The builder after the loop of line 143 has written one line per name
    into the section [ref]. *)
Definition bind_lines (ref : nat) (names : list string) (cb : CodeBuilder)
  : CodeBuilder :=
  fold_left (fun c name => section_add_line ref (LBind name) c) names cb.

(** The builder [finish] hands to [get_globals]. *)
Definition final_code (st : cstate) : CodeBuilder :=
  dedent (add_line LReturn
            (bind_lines (vars_code st)
               (elements (all_vars st ∖ loop_vars st)) (code st))).

(** The state [__init__] calls [_compile_template] in: the two sets just
    created empty.  The locals are set by the first lines of
    [_compile_template]. *)
Definition fresh : cstate := mkState ∅ ∅ (Builder.new 0) 0 [] [].

(** The state after the whole text [{% if x %}] was scanned. *)
Definition open_if : cstate :=
  match scan "{% if x %}" fresh with
  | Ok (_, st) => st
  | Raise _ => fresh
  end.

(** The body of [render] for a program that holds nothing but the lines
    of the preamble and the [return]. *)
Definition skeleton : renderer :=
  [LResult; LAppendAlias; LExtendAlias; LStrAlias; LReturn].

(** What the token loop keeps true of its state: the builder of [code]
    steps by 4, its indentation is one step for the body of [render] plus
    one step per open block, and [vars_code] refers to a section of it. *)
Definition scan_inv (st : cstate) : Prop :=
  INDENT_STEP (code st) = 4%Z
  /\ _indent (code st) = (4 + 4 * Z.of_nat (List.length (ops_stack st)))%Z
  /\ exists sec, _code (code st) !! vars_code st = Some (BSection sec).

(** The tokens of [re.split] put together again: a literal, then for each
    match the blank the pattern takes before the group, the group and the
    next literal. *)
Fixpoint rejoin (tokens : list string) : string :=
  match tokens with
  | [] => EmptyString
  | [lit] => lit
  | lit :: group :: rest => lit ++ String " " (group ++ rejoin rest)
  end.

(** [words] of the branch for tags: [token[2:-2].strip().split()]. *)
Definition tag_words (token : string) : list string :=
  split_ws (strip (slice_2_m2 token)).

(** The output entries a line of the program appends to [result], and the
    entries of a whole program in order. *)
Definition emitted (l : line) : list frag :=
  match l with
  | LAppend f => [f]
  | LExtend fs => fs
  | _ => []
  end.

Definition emitted_all (p : list (Z * line)) : list frag :=
  flat_map (fun e => emitted (snd e)) p.

(** The output a compilation has produced so far: what the emitted lines
    append, then what is pending in the buffer. *)
Definition output_of (st : cstate) : list frag :=
  (emitted_all (lines (code st)) ++ buffer st)%list.

(** The entry one token adds to the buffer when it compiles: none for a
    comment, a tag or an empty literal. *)
Definition token_frags (token : string) : list frag :=
  if startswith "{#" token then []
  else if startswith "{{" token then [FStr (expr_text (strip (slice_2_m2 token)))]
  else if startswith "{%" token then []
  else if is_empty token then []
  else [FLit token].

Definition as_block (e : Z * line) : block := BLine (fst e) (snd e).

(** How a step of the token loop can change the state: the section
    reference and [loop_vars] stay, [all_vars] grows, lines are only added
    at the end of [code], and the output grows by [frs]. *)
Definition step_shape (st st' : cstate) (frs : list frag) : Prop :=
  vars_code st' = vars_code st
  /\ loop_vars st' = loop_vars st
  /\ all_vars st ⊆ all_vars st'
  /\ INDENT_STEP (code st') = INDENT_STEP (code st)
  /\ exists added : list (Z * line),
       _code (code st') = (_code (code st) ++ map as_block added)%list
       /\ (emitted_all added ++ buffer st')%list = (buffer st ++ frs)%list.

(** The builder after lines 75 to 82. *)
Definition preamble_code : CodeBuilder :=
  mkCodeBuilder 4
    [BLine 0 LDef; BSection (Builder.new 4); BLine 4 LResult; BLine 4 LAppendAlias;
     BLine 4 LExtendAlias; BLine 4 LStrAlias] 4.

(** Proof step: two results that differ only in how the new [all_vars] is
    written. *)
Ltac same_vars :=
  match goal with
  | |- Ok (?c, set_all_vars ?v ?st) = Ok (_, set_all_vars ?w _) =>
      apply (f_equal (fun x => Ok (c, set_all_vars x st))); set_solver
  end.

End Stencil.

(** ** stencil/__init__.py: the [Template] object and rendering *)

(** The operations of the host's object protocol that [_do_dots] uses, on
    the values a context can hold. *)
Class PyObject (value : Type) : Type := {
  py_getattr : value -> string -> result value;   (* getattr(value, dot) *)
  py_getitem : value -> string -> result value;   (* value[dot] *)
  py_callable : value -> bool;                    (* callable(value) *)
  py_call : value -> result value                 (* value() *)
}.

Module Runtime.
Import PyStr Py Builder Host.

Section WithValues.
Context {value : Type} `{PyObject value}.

(** One name of the loop of [_do_dots]: the [try]/[except], then the
    call of a callable. *)
Definition dot_step (v : value) (dot : string) : result value :=
  rbind (match py_getattr v dot with
         | Raise AttributeError => py_getitem v dot
         | r => r
         end)
        (fun v' => if py_callable v' then py_call v' else Ok v').

Fixpoint _do_dots (v : value) (dots : list string) : result value :=
  match dots with
  | [] => Ok v
  | dot :: dots' => rbind (dot_step v dot) (fun v' => _do_dots v' dots')
  end.

(** The fields of a [Template]; [context] is a reference to a dict. *)
Record Template : Type := mkTemplate {
  context : nat;
  all_vars : gset string;
  loop_vars : gset string;
  _renderer : renderer
}.

(** The objects of the store: dicts and templates.  A reference is a
    position in the store; new objects are added at the end. *)
Inductive object : Type :=
| ODict (d : gmap string value)
| OTemplate (t : Template).

Definition heap : Type := list object.

Definition get_dict (h : heap) (ref : nat) : result (gmap string value) :=
  match h !! ref with
  | Some (ODict d) => Ok d
  | _ => Raise (OtherError "TypeError")
  end.

(** [for ctx in contexts: self.context.update(ctx)], from [acc]. *)
Fixpoint merge_contexts (h : heap) (acc : gmap string value)
         (contexts : list nat) : result (gmap string value) :=
  match contexts with
  | [] => Ok acc
  | ctx :: rest =>
      rbind (get_dict h ctx) (fun d => merge_contexts h (d ∪ acc) rest)
  end.

(** [Template(text, *contexts)]: the reference to the new instance and
    the store that holds it, or the exception raised. *)
Definition __init__ (text : string) (contexts : list nat) (h : heap)
  : result (nat * heap) :=
  rbind (merge_contexts h ∅ contexts) (fun base =>
  let context_ref := List.length h in
  let h1 := (h ++ [ODict base])%list in
  match Stencil._compile_template text Stencil.fresh with
  | Ok (r, st) =>
      Ok (List.length h1,
          (h1 ++ [OTemplate (mkTemplate context_ref (Stencil.all_vars st)
                               (Stencil.loop_vars st) r)])%list)
  | Raise e => Raise e
  end).

(** [render(self, ctx)]: what the call returns or raises, and the store
    after it.  [ctx] is [None] or a reference to a dict; an empty dict
    is falsy. *)
Definition render (self : nat) (ctx : option nat) (h : heap)
  : result (option string) * heap :=
  match h !! self with
  | Some (OTemplate t) =>
      match get_dict h (context t) with
      | Ok base =>
          let render_ctx := List.length h in
          let h1 := (h ++ [ODict base])%list in
          match ctx with
          | None => (call_renderer (_renderer t) render_ctx _do_dots, h1)
          | Some c =>
              match get_dict h c with
              | Ok d =>
                  let h2 :=
                    if decide (d = ∅) then h1
                    else <[render_ctx := ODict (d ∪ base)]> h1 in
                  (call_renderer (_renderer t) render_ctx _do_dots, h2)
              | Raise e => (Raise e, h1)
              end
          end
      | Raise e => (Raise e, h)
      end
  | _ => (Raise (OtherError "TypeError"), h)
  end.

End WithValues.

(** *** A small universe of context values

    Strings, mappings with string keys, objects with named attributes,
    callables of no argument, and objects whose attribute access raises an
    exception of the class named (a property that fails). *)
#[warnings="-register-all"]
Inductive pyval : Type :=
| VStr (s : string)
| VDict (items : list (string * pyval))
| VObj (attrs : list (string * pyval))
| VFun (returns : pyval)
| VFails (class : string).

Fixpoint assoc (k : string) (l : list (string * pyval)) : option pyval :=
  match l with
  | [] => None
  | (k', v) :: l' => if String.eqb k k' then Some v else assoc k l'
  end.

#[export] Instance pyval_object : PyObject pyval := {|
  py_getattr v name :=
    match v with
    | VObj attrs =>
        match assoc name attrs with
        | Some a => Ok a
        | None => Raise AttributeError
        end
    | VFails class => Raise (OtherError class)
    | _ => Raise AttributeError
    end;
  py_getitem v key :=
    match v with
    | VDict items =>
        match assoc key items with
        | Some a => Ok a
        | None => Raise (OtherError "KeyError")
        end
    | _ => Raise (OtherError "TypeError")
    end;
  py_callable v := match v with VFun _ => true | _ => false end;
  py_call v :=
    match v with
    | VFun r => Ok r
    | _ => Raise (OtherError "TypeError")
    end
|}.

(** Sample values: an object whose [name] is a method returning a string,
    and a mapping that holds it under the key [u]. *)
Definition ann : pyval := VObj [("name", VFun (VStr "Ann"))].
Definition users : pyval := VDict [("u", ann)].

(** A sample store: a base context, a template compiled from a text
    without tags and expressions, and a caller's dict. *)
Definition sample_heap : heap (value := pyval) :=
  [ODict {["x" := VStr "hi"]};
   OTemplate (mkTemplate 0 ∅ ∅ Stencil.skeleton);
   ODict {["y" := VStr "yo"]}].

(** Two more sample stores: two contexts that both hold [x], and a store
    with an empty dict beside a base context and a template. *)
Definition two_contexts : heap (value := pyval) :=
  [ODict {["x" := VStr "1"]}; ODict {["x" := VStr "2"]}].

Definition heap_with_empty_dict : heap (value := pyval) :=
  [ODict {["x" := VStr "hi"]};
   OTemplate (mkTemplate 0 ∅ ∅ Stencil.skeleton);
   ODict ∅].

End Runtime.

(** * Properties *)

(** ** Facts about the string primitives *)

Module PyStrFacts.
Import PyStr.

Lemma contains_cons (c d : ascii) (s : string) :
  contains c (String d s) = Ascii.eqb d c || contains c s.
Proof. simpl. destruct (Ascii.eqb d c); reflexivity. Qed.

Lemma contains_app (c : ascii) (s t : string) :
  contains c (s ++ t) = contains c s || contains c t.
Proof.
  induction s as [|d s IH]; simpl; [reflexivity|].
  destruct (Ascii.eqb d c); [reflexivity | exact IH].
Qed.

(** A string without the separator is not split. *)
Lemma split_on_absent (c : ascii) (s : string) :
  contains c s = false -> split_on c s = [s].
Proof.
  induction s as [|d s IH]; simpl; [reflexivity|].
  destruct (Ascii.eqb d c); [discriminate|].
  intros Hs. rewrite (IH Hs). reflexivity.
Qed.

(** The first piece ends at the first separator. *)
Lemma split_on_app (c : ascii) (x rest : string) :
  contains c x = false ->
  split_on c (x ++ String c rest) = x :: split_on c rest.
Proof.
  induction x as [|d x IH]; simpl.
  - intros _. rewrite Ascii.eqb_refl. reflexivity.
  - destruct (Ascii.eqb d c); [discriminate|].
    intros Hx. rewrite (IH Hx). reflexivity.
Qed.

(** Splitting undoes joining when no part holds the separator. *)
Lemma split_on_join (c : ascii) (parts : list string) :
  parts <> [] ->
  Forall (fun p => contains c p = false) parts ->
  split_on c (join (String c EmptyString) parts) = parts.
Proof.
  induction parts as [|p parts IH]; [congruence|].
  intros _ Hall. inversion Hall as [|? ? Hp Hps]; subst.
  destruct parts as [|q parts].
  - simpl. apply split_on_absent, Hp.
  - change (join (String c EmptyString) (p :: q :: parts))
      with (p ++ String c (join (String c EmptyString) (q :: parts))).
    rewrite split_on_app by exact Hp.
    rewrite IH; [reflexivity | congruence | exact Hps].
Qed.

Lemma contains_join (c : ascii) (p q : string) (parts : list string) :
  contains c (join (String c EmptyString) (p :: q :: parts)) = true.
Proof.
  change (join (String c EmptyString) (p :: q :: parts))
    with (p ++ String c (join (String c EmptyString) (q :: parts))).
  rewrite contains_app, contains_cons, Ascii.eqb_refl.
  apply orb_true_r.
Qed.

(** The first piece of a split never holds the separator. *)
Lemma contains_hd_split_on (c : ascii) (s : string) :
  contains c (hd EmptyString (split_on c s)) = false.
Proof.
  induction s as [|d s IH]; simpl; [reflexivity|].
  destruct (Ascii.eqb d c) eqn:E; simpl; [reflexivity|].
  destruct (split_on c s) as [|w ws]; simpl in *.
  - rewrite E. reflexivity.
  - rewrite E. exact IH.
Qed.

(** A piece of a split holds only characters of the string. *)
Lemma contains_hd_split_other (c d : ascii) (s : string) :
  contains c s = false ->
  contains c (hd EmptyString (split_on d s)) = false.
Proof.
  induction s as [|e s IH]; simpl; [reflexivity|].
  destruct (Ascii.eqb e c) eqn:E; [discriminate|].
  intros Hs. destruct (Ascii.eqb e d); simpl; [reflexivity|].
  specialize (IH Hs).
  destruct (split_on d s) as [|w ws]; simpl in *; rewrite E; [reflexivity | exact IH].
Qed.

(** What the source's check accepts after the first character: identifier
    characters only, or identifier characters and then one newline. *)
Lemma ident_tail_spec (s : string) :
  ident_tail s = true <->
  all_ident_chars s = true
  \/ exists t, s = t ++ chr newline /\ all_ident_chars t = true.
Proof.
  induction s as [|c s IH]; cbn [ident_tail all_ident_chars].
  - split; [left; reflexivity | reflexivity].
  - destruct (is_ident_char c) eqn:Ec; cbn [andb].
    + rewrite IH. split.
      * intros [Hs|(t & -> & Ht)]; [left; exact Hs|].
        right. exists (String c t). cbn [append all_ident_chars].
        rewrite Ec, Ht. split; reflexivity.
      * intros [Hs|(t & Heq & Ht)]; [left; exact Hs|].
        destruct t as [|d t]; cbn [append chr] in Heq.
        { injection Heq as -> _. vm_compute in Ec. discriminate. }
        injection Heq as <- ->. cbn [all_ident_chars] in Ht.
        apply andb_prop in Ht. destruct Ht as [_ Ht].
        right. exists t. split; [reflexivity | exact Ht].
    + split.
      * intros [Hc Hs]%andb_prop. apply Ascii.eqb_eq in Hc. subst c.
        destruct s; [|discriminate].
        right. exists EmptyString. split; reflexivity.
      * intros [Hs|(t & Heq & Ht)]; [discriminate|].
        destruct t as [|d t]; cbn [append chr] in Heq.
        { injection Heq as -> ->. reflexivity. }
        injection Heq as <- ->. cbn [all_ident_chars] in Ht.
        rewrite Ec in Ht. discriminate.
Qed.

(** The check of [_variable] accepts the identifiers, and an identifier
    followed by one newline; nothing else. *)
Lemma ident_match_spec (name : string) :
  ident_match name = true <->
  is_identifier name = true
  \/ exists t, name = t ++ chr newline /\ is_identifier t = true.
Proof.
  destruct name as [|c s]; cbn [ident_match is_identifier].
  - split; [discriminate|]. intros [H|(t & Heq & Ht)]; [discriminate|].
    destruct t; discriminate.
  - rewrite andb_true_iff, ident_tail_spec. split.
    + intros [Hc [Hs|(t & -> & Ht)]].
      * left. rewrite Hc, Hs. reflexivity.
      * right. exists (String c t). cbn [append is_identifier].
        rewrite Hc, Ht. split; reflexivity.
    + intros [[Hc Hs]%andb_prop|(t & Heq & Ht)].
      * split; [exact Hc | left; exact Hs].
      * destruct t as [|d t]; [discriminate|].
        cbn [append] in Heq. injection Heq as <- ->.
        cbn [is_identifier] in Ht. apply andb_prop in Ht. destruct Ht as [Hc Ht].
        split; [exact Hc|]. right. exists t. split; [reflexivity | exact Ht].
Qed.

(** On a name without a newline the check of [_variable] and the
    whole-string reading of the pattern agree. *)
Lemma ident_tail_one_line (s : string) :
  contains newline s = false -> ident_tail s = all_ident_chars s.
Proof.
  induction s as [|c s IH]; [reflexivity|].
  cbn [contains ident_tail all_ident_chars].
  destruct (Ascii.eqb c newline) eqn:Ec; [discriminate|].
  intros Hs. destruct (is_ident_char c); cbn [andb]; [exact (IH Hs) | reflexivity].
Qed.

Lemma ident_match_one_line (name : string) :
  contains newline name = false -> ident_match name = is_identifier name.
Proof.
  destruct name as [|c s]; [reflexivity|].
  cbn [contains ident_match is_identifier].
  destruct (Ascii.eqb c newline); [discriminate|].
  intros Hs. rewrite (ident_tail_one_line s Hs). reflexivity.
Qed.

Lemma all_ident_chars_without (c : ascii) (s : string) :
  is_ident_char c = false -> all_ident_chars s = true -> contains c s = false.
Proof.
  intros Hc. induction s as [|d s IH]; [reflexivity|].
  cbn [all_ident_chars contains]. intros [Hd Hs]%andb_prop.
  destruct (Ascii.eqb d c) eqn:E; [|exact (IH Hs)].
  apply Ascii.eqb_eq in E. subst d. congruence.
Qed.

Lemma is_ident_start_char c : is_ident_start c = true -> is_ident_char c = true.
Proof. unfold is_ident_char. intros ->. reflexivity. Qed.

Lemma is_identifier_without (c : ascii) (name : string) :
  is_ident_char c = false -> is_identifier name = true -> contains c name = false.
Proof.
  intros Hc. destruct name as [|d s]; [reflexivity|].
  cbn [is_identifier]. intros [Hd Hs]%andb_prop.
  apply (all_ident_chars_without c (String d s) Hc).
  cbn [all_ident_chars]. rewrite (is_ident_start_char d Hd), Hs. reflexivity.
Qed.

Lemma is_identifier_ident_match name :
  is_identifier name = true -> ident_match name = true.
Proof. intros H. apply ident_match_spec. left. exact H. Qed.

End PyStrFacts.

(** ** Facts about the compiler *)

Module StencilFacts.
Import PyStr Py Builder Host Stencil PyStrFacts.

Lemma bind_Ok_l {A B} (m : M A) (k : A -> M B) st a st1 :
  m st = Ok (a, st1) -> bind m k st = k a st1.
Proof. unfold bind. intros ->. reflexivity. Qed.

Lemma bind_Raise_l {A B} (m : M A) (k : A -> M B) st e :
  m st = Raise e -> bind m k st = Raise e.
Proof. unfold bind. intros ->. reflexivity. Qed.

Lemma bind_Ok_inv {A B} (m : M A) (k : A -> M B) st b st2 :
  bind m k st = Ok (b, st2) ->
  exists a st1, m st = Ok (a, st1) /\ k a st1 = Ok (b, st2).
Proof.
  unfold bind. destruct (m st) as [[a st1]|e]; [|discriminate].
  intros Hk. exists a, st1. split; [reflexivity | exact Hk].
Qed.

Lemma when_true (m : M unit) : when true m = m.
Proof. reflexivity. Qed.

Lemma when_false (m : M unit) st : when false m st = Ok (tt, st).
Proof. reflexivity. Qed.

(** The state after [names] were added to [all_vars], first name first. *)
Lemma all_vars_set_all_vars v st : all_vars (set_all_vars v st) = v.
Proof. reflexivity. Qed.

Lemma set_all_vars_twice v w st :
  set_all_vars v (set_all_vars w st) = set_all_vars v st.
Proof. reflexivity. Qed.

Lemma set_all_vars_same st : set_all_vars (all_vars st) st = st.
Proof. destruct st; reflexivity. Qed.

(** [_variable] on [all_vars]: the check, then the insertion. *)
Lemma _variable_all name st :
  _variable name AllVars st =
  if ident_match name
  then Ok (tt, set_all_vars ({[name]} ∪ all_vars st) st)
  else Raise (StencilError ("invalid variable name: " ++ repr name)).
Proof.
  unfold _variable. destruct (ident_match name); reflexivity.
Qed.

Lemma _variable_loop name st :
  _variable name LoopVars st =
  if ident_match name
  then Ok (tt, set_loop_vars ({[name]} ∪ loop_vars st) st)
  else Raise (StencilError ("invalid variable name: " ++ repr name)).
Proof.
  unfold _variable. destruct (ident_match name); reflexivity.
Qed.

(** The name of an expression without pipes and dots. *)
Lemma _expr_code_rec_name depth expr :
  contains "|" expr = false -> contains "." expr = false ->
  _expr_code_rec (S depth) expr = (_variable expr AllVars ;; ret ("c_" ++ expr)).
Proof. intros Hp Hd. cbn [_expr_code_rec]. rewrite Hp, Hd. reflexivity. Qed.

(** An expression with a pipe: the text before the first pipe is compiled,
    then the loop over the filters runs. *)
Lemma _expr_code_rec_pipes depth expr :
  contains "|" expr = true ->
  _expr_code_rec (S depth) expr =
  (code <- _expr_code_rec depth (hd EmptyString (split_on "|" expr)) ;;
   foldM apply_filter code (tl (split_on "|" expr))).
Proof. intros Hp. cbn [_expr_code_rec]. rewrite Hp. reflexivity. Qed.

(** A dotted expression without pipes. *)
Lemma _expr_code_rec_dots depth expr :
  contains "|" expr = false ->
  _expr_code_rec (S (S depth)) expr = _expr_code_rec 2 expr.
Proof.
  intros Hp. cbn [_expr_code_rec]. rewrite Hp.
  destruct (contains "." expr) eqn:Hd; [|reflexivity].
  rewrite (contains_hd_split_other "|" "." expr Hp).
  rewrite (contains_hd_split_on "." expr). reflexivity.
Qed.

(** Three nested calls are all an expression can cause: more depth changes
    nothing, and the bound is never hit. *)
Lemma _expr_code_rec_depth depth expr :
  _expr_code_rec (3 + depth) expr = _expr_code expr.
Proof.
  unfold _expr_code. change (3 + depth)%nat with (S (S (S depth))).
  cbn [_expr_code_rec].
  destruct (contains "|" expr) eqn:Hp.
  - rewrite (contains_hd_split_on "|" expr).
    destruct (contains "." (hd EmptyString (split_on "|" expr))) eqn:Hd;
      [|reflexivity].
    rewrite (contains_hd_split_other "|" "."
               (hd EmptyString (split_on "|" expr))
               (contains_hd_split_on "|" expr)).
    rewrite (contains_hd_split_on "." (hd EmptyString (split_on "|" expr))).
    reflexivity.
  - destruct (contains "." expr) eqn:Hd; [|reflexivity].
    rewrite (contains_hd_split_other "|" "." expr Hp).
    rewrite (contains_hd_split_on "." expr). reflexivity.
Qed.

(** The loop over the filters: it stops at the first refused name, and
    otherwise wraps the code in one call per filter, first filter
    innermost, and adds every filter to [all_vars]. *)
Lemma foldM_apply_filter filters : forall code st,
  foldM apply_filter code filters st =
  match first_refused filters with
  | Some bad => Raise (StencilError ("invalid variable name: " ++ repr bad))
  | None => Ok (filter_calls code filters,
                set_all_vars (list_to_set filters ∪ all_vars st) st)
  end.
Proof.
  induction filters as [|f filters IH]; intros code st.
  - cbn. unfold ret. rewrite <- (set_all_vars_same st) at 1. same_vars.
  - cbn [foldM first_refused List.find]. unfold bind at 1, apply_filter, bind at 1.
    rewrite _variable_all.
    destruct (ident_match f) eqn:Hf; cbn [negb]; [|reflexivity].
    unfold ret at 1. rewrite IH. fold (first_refused filters).
    destruct (first_refused filters); [reflexivity|].
    cbn [filter_calls fold_left]. rewrite all_vars_set_all_vars, set_all_vars_twice.
    same_vars.
Qed.

(** The part before the first pipe: only its first dotted piece is
    checked. *)
Lemma _expr_code_rec_base base st :
  contains "|" base = false ->
  _expr_code_rec 2 base st =
  let name := hd EmptyString (split_on "." base) in
  if ident_match name
  then Ok (base_text base, set_all_vars ({[name]} ∪ all_vars st) st)
  else Raise (StencilError ("invalid variable name: " ++ repr name)).
Proof.
  intros Hp. cbn [_expr_code_rec]. rewrite Hp. unfold base_text.
  destruct (contains "." base) eqn:Hd.
  - rewrite (contains_hd_split_other "|" "." base Hp).
    rewrite (contains_hd_split_on "." base).
    cbv zeta. unfold bind at 1, bind at 1. rewrite _variable_all.
    destruct (ident_match (hd EmptyString (split_on "." base))); reflexivity.
  - rewrite (split_on_absent "." base Hd). cbn [hd].
    unfold bind. rewrite _variable_all.
    destruct (ident_match base); reflexivity.
Qed.

(** What [_expr_code] does, for every expression: it raises for the first
    refused name among [checked_names], and otherwise returns [expr_text]
    with those names added to [all_vars]. *)
Lemma _expr_code_outcome expr st :
  _expr_code expr st =
  match first_refused (checked_names expr) with
  | Some bad => Raise (StencilError ("invalid variable name: " ++ repr bad))
  | None => Ok (expr_text expr,
                set_all_vars (list_to_set (checked_names expr) ∪ all_vars st) st)
  end.
Proof.
  unfold _expr_code, checked_names, expr_text.
  destruct (contains "|" expr) eqn:Hp.
  - rewrite (_expr_code_rec_pipes 2 expr Hp). unfold bind at 1.
    rewrite (_expr_code_rec_base _ st (contains_hd_split_on "|" expr)).
    cbv zeta. cbn [first_refused List.find].
    destruct (ident_match (hd EmptyString (split_on "."
               (hd EmptyString (split_on "|" expr))))); cbn [negb]; [|reflexivity].
    rewrite foldM_apply_filter. fold (first_refused (tl (split_on "|" expr))).
    destruct (first_refused (tl (split_on "|" expr))); [reflexivity|].
    rewrite all_vars_set_all_vars, set_all_vars_twice.
    cbn [list_to_set]. same_vars.
  - rewrite (_expr_code_rec_dots 1 expr Hp).
    rewrite (_expr_code_rec_base expr st Hp).
    rewrite (split_on_absent "|" expr Hp). cbn [hd tl].
    cbv zeta. cbn [first_refused List.find].
    destruct (ident_match (hd EmptyString (split_on "." expr))); cbn [negb];
      [|reflexivity].
    cbn [filter_calls fold_left list_to_set]. same_vars.
Qed.

Lemma flush_output_spec st :
  exists c', flush_output st = Ok (tt, set_buffer [] (set_code c' st))
    /\ _indent c' = _indent (code st)
    /\ INDENT_STEP c' = INDENT_STEP (code st)
    /\ (forall i b, _code (code st) !! i = Some b -> _code c' !! i = Some b).
Proof.
  unfold flush_output, bind, gets.
  destruct (buffer st) as [|f [|g fs]].
  - exists (code st). repeat split; auto.
  - exists (add_line (LAppend f) (code st)). repeat split; auto.
    intros i b Hi. cbn. apply lookup_app_l_Some. exact Hi.
  - exists (add_line (LExtend (f :: g :: fs)) (code st)). repeat split; auto.
    intros i b Hi. cbn. apply lookup_app_l_Some. exact Hi.
Qed.

Lemma when_error_Ok b msg w st u st' :
  when b (_error msg w) st = Ok (u, st') -> b = false /\ st' = st.
Proof. destruct b; cbn; [discriminate|]. unfold ret. intros [= <- <-]. auto. Qed.

Lemma word_Ok i words st w st' :
  word i words st = Ok (w, st') -> nth_error words i = Some w /\ st' = st.
Proof.
  unfold word. destruct (nth_error words i); cbn; [|discriminate].
  unfold ret. intros [= <- <-]. auto.
Qed.

Lemma scan_inv_frame st st' :
  code st' = code st -> ops_stack st' = ops_stack st -> vars_code st' = vars_code st ->
  scan_inv st -> scan_inv st'.
Proof. unfold scan_inv. intros -> -> ->. auto. Qed.

Lemma compile_tag_inv token st st' :
  scan_inv st -> compile_tag token st = Ok (tt, st') -> scan_inv st'.
Proof.
  intros Hinv H. unfold compile_tag in H.
  apply bind_Ok_inv in H. destruct H as (u & st1 & Hf & H).
  destruct (flush_output_spec st) as (c' & Hfl & Hi & Hs & Hsec).
  rewrite Hfl in Hf. injection Hf as <- <-.
  assert (Hinv1 : scan_inv (set_buffer [] (set_code c' st))).
  { destruct Hinv as (I1 & I2 & sec & I3). unfold scan_inv; cbn.
    rewrite Hi, Hs. repeat split; auto. exists sec. auto. }
  clear Hinv Hfl Hi Hs Hsec. set (st1 := set_buffer [] (set_code c' st)) in *.
  clearbody st1. clear st c'.
  cbv zeta in H.
  apply bind_Ok_inv in H. destruct H as (w0 & st2 & Hw & H).
  apply word_Ok in Hw. destruct Hw as [Hw0 ->].
  destruct (String.eqb w0 "if").
  { apply bind_Ok_inv in H. destruct H as (? & st2 & Hwh & H).
    apply when_error_Ok in Hwh. destruct Hwh as [_ ->].
    apply bind_Ok_inv in H. destruct H as (? & st2 & Hp & H).
    injection Hp as _ <-.
    apply bind_Ok_inv in H. destruct H as (w1 & st3 & Hw1 & H).
    apply word_Ok in Hw1. destruct Hw1 as [_ ->].
    apply bind_Ok_inv in H. destruct H as (expr & st3 & He & H).
    rewrite _expr_code_outcome in He.
    destruct (first_refused (checked_names w1)); [discriminate|].
    injection He as _ <-.
    injection H as <-.
    destruct Hinv1 as (I1 & I2 & sec & I3). unfold scan_inv; cbn.
    rewrite I1, I2. repeat split; [lia|].
    exists sec. apply lookup_app_l_Some. exact I3. }
  destruct (String.eqb w0 "for").
  { destruct (negb (len (split_ws (strip (slice_2_m2 token))) =? 4)%nat
            || negb (String.eqb (nth 2 (split_ws (strip (slice_2_m2 token))) EmptyString) "in")).
    - cbn in H. discriminate.
    - injection H as <-. exact Hinv1. }
  destruct (startswith "end" w0).
  { apply bind_Ok_inv in H. destruct H as (? & st2 & Hwh & H).
    apply when_error_Ok in Hwh. destruct Hwh as [_ ->].
    cbv zeta in H.
    apply bind_Ok_inv in H. destruct H as (stack & st2 & Hg & H).
    injection Hg as <- <-.
    apply bind_Ok_inv in H. destruct H as (? & st2 & Hwh & H).
    apply when_error_Ok in Hwh. destruct Hwh as [Hne ->].
    apply bind_Ok_inv in H. destruct H as (start & st2 & Hpop & H).
    unfold ops_pop, bind, gets in Hpop.
    destruct (ops_stack st1) as [|top rest] eqn:Hstack; [discriminate|].
    cbn in Hpop. injection Hpop as <- <-.
    apply bind_Ok_inv in H. destruct H as (? & st2 & Hwh & H).
    apply when_error_Ok in Hwh. destruct Hwh as [_ ->].
    injection H as <-.
    destruct Hinv1 as (I1 & I2 & sec & I3). unfold scan_inv; cbn.
    rewrite I1, I2, Hstack. cbn [List.length]. repeat split; [lia|].
    exists sec. exact I3. }
  cbn in H. discriminate.
Qed.

Lemma compile_token_inv token st st' :
  scan_inv st -> compile_token token st = Ok (tt, st') -> scan_inv st'.
Proof.
  intros Hinv H. unfold compile_token in H.
  destruct (startswith "{#" token).
  { injection H as <-. exact Hinv. }
  destruct (startswith "{{" token).
  { apply bind_Ok_inv in H. destruct H as (expr & st1 & He & H).
    rewrite _expr_code_outcome in He.
    destruct (first_refused _); [discriminate|].
    injection He as _ <-. injection H as <-.
    revert Hinv. apply scan_inv_frame; reflexivity. }
  destruct (startswith "{%" token).
  { eapply compile_tag_inv; eassumption. }
  destruct (is_empty token); cbn in H; injection H as <-; [exact Hinv|].
  revert Hinv. apply scan_inv_frame; reflexivity.
Qed.

Lemma forM_compile_token_inv tokens : forall st st',
  scan_inv st -> forM_ compile_token tokens st = Ok (tt, st') -> scan_inv st'.
Proof.
  induction tokens as [|t ts IH]; intros st st' Hinv H.
  - injection H as <-. exact Hinv.
  - cbn [forM_] in H. apply bind_Ok_inv in H. destruct H as ([] & st1 & Ht & H).
    eapply IH; [|exact H]. eapply compile_token_inv; eassumption.
Qed.

Lemma preamble_inv st : exists st1, preamble st = Ok (tt, st1) /\ scan_inv st1
  /\ all_vars st1 = all_vars st /\ loop_vars st1 = loop_vars st
  /\ ops_stack st1 = [] /\ buffer st1 = [].
Proof.
  eexists. split; [reflexivity|]. unfold scan_inv. cbn.
  repeat split; try reflexivity. eexists. reflexivity.
Qed.

Lemma scan_scan_inv text st0 st :
  scan text st0 = Ok (tt, st) -> scan_inv st.
Proof.
  unfold scan. intros H. apply bind_Ok_inv in H. destruct H as ([] & st1 & Hp & H).
  destruct (preamble_inv st0) as (st1' & Hp' & Hinv & _).
  rewrite Hp' in Hp. injection Hp as <-.
  eapply forM_compile_token_inv; eassumption.
Qed.


Lemma forM_bind_lines names : forall st,
  forM_ (fun var_name => vars_code_add_line (LBind var_name)) names st =
  Ok (tt, set_code (bind_lines (vars_code st) names (code st)) st).
Proof.
  induction names as [|n names IH]; intros st.
  - cbn. unfold ret. destruct st; reflexivity.
  - cbn [forM_]. unfold bind, vars_code_add_line, modify. rewrite IH. reflexivity.
Qed.

Lemma section_add_line_indent ref l cb :
  _indent (section_add_line ref l cb) = _indent cb
  /\ INDENT_STEP (section_add_line ref l cb) = INDENT_STEP cb.
Proof.
  unfold section_add_line. destruct (_code cb !! ref) as [[|sec]|]; auto.
Qed.

Lemma bind_lines_indent ref names : forall cb,
  _indent (bind_lines ref names cb) = _indent cb
  /\ INDENT_STEP (bind_lines ref names cb) = INDENT_STEP cb.
Proof.
  induction names as [|n names IH]; intros cb; [auto|].
  change (bind_lines ref (n :: names) cb)
    with (bind_lines ref names (section_add_line ref (LBind n) cb)).
  destruct (IH (section_add_line ref (LBind n) cb)) as [-> ->].
  apply section_add_line_indent.
Qed.

Lemma finish_unfold st :
  finish st =
  match get_globals (final_code st) with
  | Ok r => Ok (r, set_code (final_code st) st)
  | Raise e => Raise e
  end.
Proof.
  unfold finish, final_code. unfold bind at 1, gets at 1.
  unfold bind at 1. rewrite forM_bind_lines. cbn.
  destruct (get_globals _); reflexivity.
Qed.

Lemma lines_concat cb : lines cb = concat (map block_lines (_code cb)).
Proof.
  destruct cb as [i code s]. cbn [_code lines].
  induction code as [|b code IH]; [reflexivity|].
  cbn [map concat]. rewrite <- IH. reflexivity.
Qed.

Lemma lines_section cb ref sec e :
  _code cb !! ref = Some (BSection sec) -> In e (lines sec) -> In e (lines cb).
Proof.
  intros Hl He. rewrite lines_concat. apply in_concat.
  exists (lines sec). split; [|exact He].
  apply in_map_iff. exists (BSection sec). split; [reflexivity|].
  apply list_elem_of_In. eapply list_elem_of_lookup_2. exact Hl.
Qed.

Lemma lines_add_line l cb : lines (add_line l cb) = (lines cb ++ [(_indent cb, l)])%list.
Proof.
  rewrite !lines_concat. cbn [add_line _code]. rewrite map_app, concat_app.
  reflexivity.
Qed.

(** Once a binding line is in the section, it stays in the program. *)
Lemma section_add_line_keeps ref l cb sec :
  _code cb !! ref = Some (BSection sec) ->
  exists sec', _code (section_add_line ref l cb) !! ref = Some (BSection sec')
    /\ (forall e, In e (lines sec) -> In e (lines sec'))
    /\ In (_indent sec, l) (lines sec').
Proof.
  intros Hl. unfold section_add_line. rewrite Hl. cbn [_code].
  exists (add_line l sec). split.
  - apply list_lookup_insert_eq. eapply lookup_lt_Some. exact Hl.
  - rewrite lines_add_line. split.
    + intros e He. apply in_or_app. left. exact He.
    + apply in_or_app. right. left. reflexivity.
Qed.

Lemma bind_lines_keeps ref names : forall cb sec,
  _code cb !! ref = Some (BSection sec) ->
  exists sec', _code (bind_lines ref names cb) !! ref = Some (BSection sec')
    /\ (forall e, In e (lines sec) -> In e (lines sec'))
    /\ (forall name, In name names -> exists i, In (i, LBind name) (lines sec')).
Proof.
  induction names as [|n names IH]; intros cb sec Hl.
  - exists sec. split; [exact Hl|]. split; [auto|]. intros name [].
  - change (bind_lines ref (n :: names) cb)
      with (bind_lines ref names (section_add_line ref (LBind n) cb)).
    destruct (section_add_line_keeps ref (LBind n) cb sec Hl) as (s1 & Hl1 & Hk1 & Hn1).
    destruct (IH _ s1 Hl1) as (s2 & Hl2 & Hk2 & Hn2).
    exists s2. split; [exact Hl2|]. split; [auto|].
    intros name [<-|Hin]; [|auto]. eexists. apply Hk2. exact Hn1.
Qed.

Lemma py_syntax_ok_bind p i name :
  In (i, LBind name) p -> py_syntax_ok p = false.
Proof.
  intros Hin. unfold py_syntax_ok.
  destruct (forallb _ p) eqn:Hall; [|reflexivity].
  rewrite forallb_forall in Hall. specialize (Hall _ Hin). discriminate.
Qed.

Lemma py_exec_bind p i name :
  In (i, LBind name) p -> py_exec p = Raise SyntaxError.
Proof. intros Hin. unfold py_exec. rewrite (py_syntax_ok_bind p i name Hin). reflexivity. Qed.


Lemma final_code_indent st :
  scan_inv st ->
  _indent (final_code st) = (4 * Z.of_nat (List.length (ops_stack st)))%Z.
Proof.
  intros (I1 & I2 & _). unfold final_code. cbn [dedent add_line _indent INDENT_STEP].
  destruct (bind_lines_indent (vars_code st) (elements (all_vars st ∖ loop_vars st)) (code st))
    as [-> ->].
  rewrite I1, I2. lia.
Qed.

Lemma finish_open_block st :
  scan_inv st -> ops_stack st <> [] -> finish st = Raise AssertionError.
Proof.
  intros Hinv Hne. rewrite finish_unfold.
  unfold get_globals. rewrite (final_code_indent st Hinv).
  destruct (ops_stack st); [congruence|]. cbn [List.length].
  destruct (4 * Z.of_nat (S (List.length l)) =? 0)%Z eqn:E;
    [apply Z.eqb_eq in E; lia | reflexivity].
Qed.

Lemma finish_bound_names st :
  scan_inv st -> all_vars st ∖ loop_vars st <> ∅ ->
  finish st = Raise (if decide (ops_stack st = []) then SyntaxError else AssertionError).
Proof.
  intros Hinv Hne. destruct (decide (ops_stack st = [])) as [Hs|Hs];
    [|apply finish_open_block; assumption].
  rewrite finish_unfold.
  unfold get_globals. rewrite (final_code_indent st Hinv), Hs. cbn [List.length Z.of_nat Z.mul Z.eqb].
  destruct Hinv as (_ & _ & sec & Hsec).
  destruct (elements (all_vars st ∖ loop_vars st)) as [|n names] eqn:Hel.
  { apply elements_empty_inv in Hel. apply leibniz_equiv in Hel. contradiction. }
  destruct (bind_lines_keeps (vars_code st) (n :: names) (code st) sec Hsec)
    as (sec' & Hl & _ & Hb).
  destruct (Hb n (or_introl eq_refl)) as (i & Hi).
  assert (Hin : In (i, LBind n) (lines (final_code st))).
  { unfold final_code. rewrite Hel.
    eapply lines_section with (ref := vars_code st) (sec := sec'); [|exact Hi].
    cbn [dedent add_line _code]. apply lookup_app_l_Some. exact Hl. }
  rewrite (py_exec_bind _ i n Hin). reflexivity.
Qed.

Lemma tag_token_dispatch token :
  startswith "{%" token = true ->
  compile_token token = compile_tag token.
Proof.
  intros H. unfold compile_token. rewrite H.
  destruct token as [|c1 [|c2 t]]; cbn [startswith] in H; try discriminate.
  { rewrite andb_false_r in H. discriminate. }
  apply andb_prop in H. destruct H as [H1 H2].
  apply andb_prop in H2. destruct H2 as [H2 _].
  apply Ascii.eqb_eq in H1, H2. subst. reflexivity.
Qed.

Lemma end_word_not_opener w :
  startswith "end" w = true -> String.eqb w "if" = false /\ String.eqb w "for" = false.
Proof.
  destruct w as [|c w]; [discriminate|]. cbn [startswith]. intros H.
  apply andb_prop in H. destruct H as [H _]. apply Ascii.eqb_eq in H. subst.
  split; reflexivity.
Qed.


(** An [end] tag: what happens after the flush. *)
Lemma compile_tag_end token w st st1 :
  split_ws (strip (slice_2_m2 token)) = [w] ->
  startswith "end" w = true ->
  flush_output st = Ok (tt, st1) ->
  compile_tag token st =
  match ops_stack st1 with
  | [] => Raise (StencilError ("no opening tag for end: " ++ repr token))
  | start :: rest =>
      if String.eqb start (drop 3 w)
      then Ok (tt, set_code (dedent (code st1)) (set_ops_stack rest st1))
      else Raise (StencilError ("mismatched end tag, expected end" ++ start ++ ": "
                                  ++ repr (drop 3 w)))
  end.
Proof.
  intros Hw He Hf. unfold compile_tag. unfold bind at 1. rewrite Hf, Hw.
  cbv zeta. unfold bind at 1. cbn [word nth_error]. unfold ret at 1.
  destruct (end_word_not_opener w He) as [-> ->]. rewrite He.
  cbn [len List.length Nat.eqb negb]. unfold bind at 1. rewrite when_false.
  unfold bind at 1, gets at 1.
  destruct (ops_stack st1) as [|start rest] eqn:Hs.
  - reflexivity.
  - unfold bind at 1. rewrite when_false. unfold bind at 1, ops_pop, bind at 1, gets.
    rewrite Hs. unfold bind at 1, modify at 1, ret at 1. unfold bind at 1.
    destruct (String.eqb start (drop 3 w)) eqn:E.
    + rewrite when_false. reflexivity.
    + cbn [negb when]. unfold _error, raise.
      replace (("mismatched end tag, expected end" ++ start) ++ ": " ++ repr (drop 3 w))
        with ("mismatched end tag, expected end" ++ start ++ ": " ++ repr (drop 3 w));
        [reflexivity|].
      cbn [append]. reflexivity.
Qed.

Lemma compile_template_inv text st0 r st :
  _compile_template text st0 = Ok (r, st) ->
  exists st1, scan text st0 = Ok (tt, st1) /\ finish st1 = Ok (r, st).
Proof.
  unfold _compile_template. intros H.
  apply bind_Ok_inv in H. destruct H as ([] & st1 & Hs & Hf). eauto.
Qed.

Lemma finish_keeps_state st r st' :
  finish st = Ok (r, st') -> st' = set_code (final_code st) st.
Proof.
  rewrite finish_unfold.
  destruct (get_globals (final_code st)); [|discriminate]. intros [= _ <-]. reflexivity.
Qed.





Lemma init_raises {value : Type} `{PyObject value} text e
      (h : Runtime.heap (value := value)) :
  _compile_template text fresh = Raise e -> Runtime.__init__ text [] h = Raise e.
Proof.
  intros E. unfold Runtime.__init__. cbn [Runtime.merge_contexts rbind].
  rewrite E. reflexivity.
Qed.

Lemma flush_output_lines st :
  exists st1, flush_output st = Ok (tt, st1)
    /\ ops_stack st1 = ops_stack st
    /\ all_vars st1 = all_vars st /\ loop_vars st1 = loop_vars st
    /\ _indent (code st1) = _indent (code st)
    /\ (forall i var expr, In (i, LFor var expr) (lines (code st1)) ->
                           In (i, LFor var expr) (lines (code st))).
Proof.
  unfold flush_output, bind, gets.
  destruct (buffer st) as [|f [|g fs]]; eexists; (split; [reflexivity|]);
    cbn [ops_stack all_vars loop_vars code set_buffer set_code add_line _indent];
    repeat split; try reflexivity; intros i var expr Hin; try exact Hin.
  - change (mkCodeBuilder (_indent (code st)) (_code (code st) ++ [BLine (_indent (code st)) (LAppend f)]) (INDENT_STEP (code st)))
      with (add_line (LAppend f) (code st)) in Hin.
    rewrite lines_add_line in Hin. apply in_app_or in Hin.
    destruct Hin as [Hin|[Hin|[]]]; [exact Hin | discriminate].
  - change (mkCodeBuilder (_indent (code st)) (_code (code st) ++ [BLine (_indent (code st)) (LExtend (f :: g :: fs))]) (INDENT_STEP (code st)))
      with (add_line (LExtend (f :: g :: fs)) (code st)) in Hin.
    rewrite lines_add_line in Hin. apply in_app_or in Hin.
    destruct Hin as [Hin|[Hin|[]]]; [exact Hin | discriminate].
Qed.

(** C1 (the code differs).  A tag token whose words are for, a name, in, an
    expression is only a flush of the buffer: nothing is pushed on the ops
    stack, no loop variable is registered, the expression is not compiled,
    no iteration header is emitted and the indentation stays.  The template
    of the claim does not compile: its text is one tag token of eight
    words. *)
Theorem for_tag_is_only_a_flush :
  (forall token var expr st,
      startswith "{%" token = true ->
      split_ws (strip (slice_2_m2 token)) = ["for"; var; "in"; expr] ->
      exists st',
        compile_token token st = Ok (tt, st')
        /\ flush_output st = Ok (tt, st')
        /\ ops_stack st' = ops_stack st
        /\ loop_vars st' = loop_vars st
        /\ all_vars st' = all_vars st
        /\ _indent (code st') = _indent (code st)
        /\ (forall i v e, In (i, LFor v e) (lines (code st')) ->
                          In (i, LFor v e) (lines (code st))))
  /\ _compile_template "{% for n in items %}{{ n }},{% endfor %}" fresh =
     Raise (StencilError
              "invalid syntax: for: '{% for n in items %}{{ n }},{% endfor %}'").
Proof.
  split; [|vm_compute; reflexivity].
  intros token var expr st Ht Hw.
  destruct (flush_output_lines st) as (st1 & Hf & Hs & Ha & Hl & Hi & Hlines).
  exists st1. rewrite (tag_token_dispatch token Ht).
  repeat split; try assumption.
  unfold compile_tag. unfold bind at 1. rewrite Hf, Hw. reflexivity.
Qed.

Lemma for_tag_is_only_a_flush_witness :
  exists st',
    compile_token "{% for n in items %}" fresh = Ok (tt, st')
    /\ flush_output fresh = Ok (tt, st')
    /\ ops_stack st' = ops_stack fresh
    /\ loop_vars st' = loop_vars fresh
    /\ all_vars st' = all_vars fresh
    /\ _indent (code st') = _indent (code fresh)
    /\ (forall i v e, In (i, LFor v e) (lines (code st')) ->
                      In (i, LFor v e) (lines (code fresh))).
Proof.
  exact (proj1 for_tag_is_only_a_flush "{% for n in items %}" "n" "items" fresh
           eq_refl eq_refl).
Defined.


(** C2 (the code differs).  Whenever the scan ends with a referenced name
    that is not a loop variable, the prologue written into the reserved
    section makes the construction fail: the line c_x = context'x' is not
    Python, so exec raises SyntaxError (after an open block the assertion of
    get_globals fails first).  Template("{{ x }}") raises SyntaxError. *)
Theorem prologue_breaks_construction :
  (forall text st0 st,
      scan text st0 = Ok (tt, st) ->
      all_vars st ∖ loop_vars st <> ∅ ->
      _compile_template text st0 =
      Raise (if decide (ops_stack st = []) then SyntaxError else AssertionError))
  /\ (exists st,
        scan "{{ x }}" fresh = Ok (tt, st)
        /\ lines (final_code st) =
           [(0, LDef); (4, LBind "x"); (4, LResult); (4, LAppendAlias);
            (4, LExtendAlias); (4, LStrAlias); (4, LReturn)]%Z
        /\ source (final_code st) =
"def render(ctx, do_dots):
    c_x = context'x'
    result = []
    append = result.append
    extend = result.extend
    str = str
    return ''.join(result)
")
  /\ (forall (value : Type) (O : PyObject value) (h : Runtime.heap (value := value)),
        Runtime.__init__ "{{ x }}" [] h = Raise SyntaxError).
Proof.
  split; [|split].
  - intros text st0 st Hs Hne. unfold _compile_template, bind. rewrite Hs.
    apply finish_bound_names; [|exact Hne]. exact (scan_scan_inv _ _ _ Hs).
  - eexists. split; [vm_compute; reflexivity|]. split; vm_compute; reflexivity.
  - intros value O h. apply init_raises. vm_compute. reflexivity.
Qed.

Lemma prologue_breaks_construction_witness :
  _compile_template "{{ x }}" fresh = Raise SyntaxError.
Proof.
  destruct (scan "{{ x }}" fresh) as [[[] st]|e] eqn:E.
  - refine (eq_trans (proj1 prologue_breaks_construction "{{ x }}" fresh st E _) _).
    + vm_compute in E. injection E as <-. vm_compute. discriminate.
    + vm_compute in E. injection E as <-. vm_compute. reflexivity.
  - vm_compute in E. discriminate.
Defined.

Lemma finish_ignores_buffer st b :
  finish (set_buffer b st) =
  match finish st with
  | Ok (r, st') => Ok (r, set_buffer b st')
  | Raise e => Raise e
  end.
Proof.
  rewrite !finish_unfold.
  change (final_code (set_buffer b st)) with (final_code st).
  destruct (get_globals (final_code st)); reflexivity.
Qed.

(** Every call of the function a compiled program defines stops at its
    fourth statement. *)
Lemma skeleton_call {C D} (ctx : C) (do_dots : D) body :
  call_renderer (LResult :: LAppendAlias :: LExtendAlias :: LStrAlias :: body)
    ctx do_dots = Raise UnboundLocalError.
Proof. reflexivity. Qed.

(** C3 (the code differs).  Nothing flushes the buffer after the last
    token: what finish returns does not depend on the pending entries, which
    stay in the buffer.  For the template hello the literal is still in the
    buffer when compilation ends, the program has no append line, and the
    text is not what a call of the renderer returns: the call raises
    UnboundLocalError at str = str. *)
Theorem pending_output_is_never_flushed :
  (forall st b,
      finish (set_buffer b st) =
      match finish st with
      | Ok (r, st') => Ok (r, set_buffer b st')
      | Raise e => Raise e
      end)
  /\ (exists st,
        _compile_template "hello" fresh = Ok (skeleton, st)
        /\ buffer st = [FLit "hello"]
        /\ lines (code st) =
           [(0, LDef); (4, LResult); (4, LAppendAlias); (4, LExtendAlias);
            (4, LStrAlias); (4, LReturn)]%Z)
  /\ (forall (C D : Type) (ctx : C) (do_dots : D),
        call_renderer skeleton ctx do_dots = Raise UnboundLocalError).
Proof.
  split; [exact finish_ignores_buffer|]. split.
  - eexists. split; [vm_compute; reflexivity|]. split; vm_compute; reflexivity.
  - intros. apply skeleton_call.
Qed.

(** A captured group never starts like a comment or a tag. *)
Lemma match_group_Some opener closer s g n :
  match_group opener closer s = Some (g, n) ->
  startswith opener s = true
  /\ g = take n s
  /\ (String.length opener <= n)%nat.
Proof.
  unfold match_group. destruct (startswith opener s); [|discriminate].
  destruct (find_close closer _); [|discriminate].
  intros [= <- <-]. repeat split. lia.
Qed.

Lemma startswith_take pre s n :
  startswith pre s = true -> (String.length pre <= n)%nat ->
  startswith pre (take n s) = true.
Proof.
  revert s n. induction pre as [|a pre IH]; intros s n Hs Hn; [reflexivity|].
  destruct s as [|b s]; [discriminate|]. cbn [startswith] in Hs.
  apply andb_prop in Hs. destruct Hs as [Hab Hs].
  destruct n as [|n]; [cbn in Hn; lia|]. cbn [take startswith].
  rewrite Hab. cbn [andb]. apply IH; [exact Hs | cbn in Hn; lia].
Qed.

Lemma startswith_first a pre b pre' s :
  startswith (String a pre) s = true -> Ascii.eqb b a = false ->
  startswith (String b pre') s = false.
Proof.
  destruct s as [|c s]; [reflexivity|]. cbn [startswith].
  intros H Hba. apply andb_prop in H. destruct H as [H _].
  apply Ascii.eqb_eq in H. subst c. rewrite Hba. reflexivity.
Qed.

Lemma captured_group_kind s g n :
  match_at s = Some (g, n) ->
  startswith "{#" g = false
  /\ startswith "{%" g = false
  /\ (startswith "{{" g = true \/ startswith " " g = true).
Proof.
  unfold match_at. destruct s as [|c s1]; [discriminate|].
  destruct (Ascii.eqb c " "); [|discriminate].
  destruct (match_group "{{ " " }} " s1) as [[g1 n1]|] eqn:E1.
  { intros [= <- <-]. apply match_group_Some in E1. destruct E1 as (Hp & -> & Hn).
    pose proof (startswith_take _ _ _ Hp Hn) as Ht.
    destruct (take n1 s1) as [|a [|b t]]; try discriminate.
    { cbn [startswith] in Ht. rewrite andb_false_r in Ht. discriminate. }
    cbn [startswith] in Ht. apply andb_prop in Ht. destruct Ht as [Ha Ht].
    apply andb_prop in Ht. destruct Ht as [Hb _].
    apply Ascii.eqb_eq in Ha, Hb. subst. repeat split; auto. }
  destruct (match_group " {% " " %} " s1) as [[g2 n2]|] eqn:E2.
  { intros [= <- <-]. apply match_group_Some in E2. destruct E2 as (Hp & -> & Hn).
    pose proof (startswith_take _ _ _ Hp Hn) as Ht.
    repeat split.
    - eapply startswith_first; [exact Ht | reflexivity].
    - eapply startswith_first; [exact Ht | reflexivity].
    - right. destruct (take n2 s1) as [|a t]; [discriminate|].
      cbn [startswith] in *. apply andb_prop in Ht. destruct Ht as [-> _]. reflexivity. }
  intros E3. apply match_group_Some in E3. destruct E3 as (Hp & -> & Hn).
  pose proof (startswith_take _ _ _ Hp Hn) as Ht.
  repeat split.
  - eapply startswith_first; [exact Ht | reflexivity].
  - eapply startswith_first; [exact Ht | reflexivity].
  - right. destruct (take n s1) as [|a t]; [discriminate|].
    cbn [startswith] in *. apply andb_prop in Ht. destruct Ht as [-> _]. reflexivity.
Qed.

(** C4 (the code differs).  The pattern is not compiled as a verbose one,
    so its blanks are literal: the text a{# c #}b is one literal token, and
    where a delimiter form is matched (after blanks) the captured token is
    never taken for a comment or a tag: the comment of the second text ends
    in the buffer as a literal.  The literal of the first text is never
    flushed, and no call of the renderer returns ab. *)
Theorem tokenizer_needs_the_blanks :
  re_split "a{# c #}b" = ["a{# c #}b"]
  /\ re_split "a  {# c #}b" = ["a"; " {# c #}"; "b"]
  /\ (forall s g n, match_at s = Some (g, n) ->
        startswith "{#" g = false /\ startswith "{%" g = false)
  /\ (exists st,
        scan "a  {# c #}b" fresh = Ok (tt, st)
        /\ buffer st = [FLit "a"; FLit " {# c #}"; FLit "b"])
  /\ (exists st,
        _compile_template "a{# c #}b" fresh = Ok (skeleton, st)
        /\ buffer st = [FLit "a{# c #}b"])
  /\ (forall (C D : Type) (ctx : C) (do_dots : D),
        call_renderer skeleton ctx do_dots = Raise UnboundLocalError).
Proof.
  split; [reflexivity|]. split; [reflexivity|]. split; [|split; [|split]].
  - intros s g n H. destruct (captured_group_kind s g n H) as (H1 & H2 & _). auto.
  - eexists. split; vm_compute; reflexivity.
  - eexists. split; vm_compute; reflexivity.
  - intros. apply skeleton_call.
Qed.

(** C5 (the code differs).  Construction raises errors of other kinds than
    the templating error: SyntaxError from exec for any template with a
    referenced name, IndexError for a tag without words, AssertionError for
    a block left open. *)
Theorem construction_raises_other_kinds :
  forall (value : Type) (O : PyObject value) (h : Runtime.heap (value := value)),
    Runtime.__init__ "{{ x }}" [] h = Raise SyntaxError
    /\ Runtime.__init__ "{% %}" [] h = Raise IndexError
    /\ Runtime.__init__ "{% if x %}" [] h = Raise AssertionError.
Proof.
  intros value O h. repeat split; apply init_raises; vm_compute; reflexivity.
Qed.

Lemma init_raises_gen {value : Type} `{PyObject value} text e :
  _compile_template text fresh = Raise e ->
  forall h : Runtime.heap (value := value), Runtime.__init__ text [] h = Raise e.
Proof. intros E h. apply init_raises. exact E. Qed.

Lemma first_refused_one_line (names : list string) :
  Forall (fun name => contains newline name = false) names ->
  first_refused names = List.find (fun name => negb (is_identifier name)) names.
Proof.
  induction 1 as [|n names Hn _ IH]; [reflexivity|].
  unfold first_refused in *. cbn [List.find].
  rewrite (ident_match_one_line n Hn), IH. reflexivity.
Qed.

Lemma contains_pipe_join_dots (name : string) (members : list string) :
  contains "|" name = false ->
  Forall (fun m => contains "|" m = false /\ contains "." m = false) members ->
  contains "|" (join "." (name :: members)) = false.
Proof.
  revert name. induction members as [|x l IH]; intros name Hp Hl; [exact Hp|].
  inversion Hl as [|? ? [Hx _] Hl']; subst.
  change (join "." (name :: x :: l)) with (name ++ String "." (join "." (x :: l))).
  rewrite contains_app, contains_cons, Hp. cbn [orb].
  replace (Ascii.eqb "." "|") with false by reflexivity. cbn [orb].
  apply IH; assumption.
Qed.

(** A dotted expression without pipes: one call of [_variable] on the name,
    and the members quoted into one call of do_dots. *)
Lemma _expr_code_dotted name members st :
  contains "|" name = false -> contains "." name = false ->
  Forall (fun m => contains "|" m = false /\ contains "." m = false) members ->
  members <> [] ->
  _expr_code (join "." (name :: members)) st =
  (_variable name AllVars ;;
   ret ("do_dots(c_" ++ name ++ ", " ++ join ", " (map repr members) ++ ")")) st.
Proof.
  intros Hp Hd Hm Hne.
  destruct members as [|m members]; [congruence|].
  assert (Hall : Forall (fun p => contains "." p = false) (name :: m :: members)).
  { constructor; [exact Hd|]. eapply Forall_impl; [exact Hm | intros x [_ Hx]; exact Hx]. }
  pose proof (contains_pipe_join_dots name (m :: members) Hp Hm) as Hpipe.
  unfold _expr_code. rewrite (_expr_code_rec_dots 1 _ Hpipe).
  cbn [_expr_code_rec]. rewrite Hpipe.
  rewrite (contains_join "." name m members).
  rewrite (split_on_join "." (name :: m :: members)); [|congruence | exact Hall].
  cbn [hd tl]. rewrite Hp, Hd. unfold bind. rewrite _variable_all.
  destruct (ident_match name); reflexivity.
Qed.

(** The filters of an expression with a pipe. *)
Lemma _expr_code_piped base filters st :
  contains "|" base = false ->
  Forall (fun f => contains "|" f = false) filters ->
  filters <> [] ->
  _expr_code (join "|" (base :: filters)) st =
  (code <- _expr_code base ;; foldM apply_filter code filters) st.
Proof.
  intros Hb Hf Hne.
  destruct filters as [|f filters]; [congruence|].
  unfold _expr_code at 1.
  rewrite (_expr_code_rec_pipes 2 _ (contains_join "|" base f filters)).
  rewrite (split_on_join "|" (base :: f :: filters));
    [|congruence | constructor; assumption].
  cbn [hd tl]. unfold bind. unfold _expr_code.
  rewrite <- (_expr_code_rec_dots 1 base Hb). reflexivity.
Qed.

Lemma elem_of_list_to_set_union (x : string) (l : list string) (s : gset string) :
  x ∈ l -> x ∈ (list_to_set l ∪ s : gset string).
Proof. intros H. apply elem_of_union_l, elem_of_list_to_set, H. Qed.

(** C7, the claim as stated fails.  The member 1bad is no identifier, and
    the expression a.1bad compiles: the member is passed on as a quoted
    argument.  The scan of a template with that expression ends without an
    error; construction then raises the SyntaxError that any referenced
    name causes, the same as for a.b. *)
Lemma member_is_not_checked :
  is_identifier "1bad" = false
  /\ ident_match "1bad" = false
  /\ members "a.1bad" = ["1bad"]
  /\ _expr_code "a.1bad" fresh =
     Ok ("do_dots(c_a, '1bad')", set_all_vars {["a"]} fresh)
  /\ is_Ok (scan "{{ a.1bad }}" fresh) = true
  /\ _compile_template "{{ a.1bad }}" fresh = Raise SyntaxError
  /\ _compile_template "{{ a.b }}" fresh = Raise SyntaxError.
Proof.
  repeat split; vm_compute; reflexivity.
Qed.

(** C7, amended.  For an expression whose top-level name and filter names
    hold no newline: when one of these names is not an identifier,
    _expr_code raises the templating error that quotes the first such name
    in the order of the calls; otherwise it returns the code of the
    expression and adds these names, no others, to all_vars.  The dotted
    members are not checked: after a name that is an identifier, members of
    any text compile, each quoted into the one call of do_dots.  The
    template of the claim with the name 1bad raises the templating error at
    construction. *)
Theorem names_and_filters_are_checked :
  (forall expr st,
      Forall (fun name => contains newline name = false) (checked_names expr) ->
      match List.find (fun name => negb (is_identifier name)) (checked_names expr) with
      | Some bad =>
          _expr_code expr st =
          Raise (StencilError ("invalid variable name: " ++ repr bad))
      | None =>
          exists st',
            _expr_code expr st = Ok (expr_text expr, st')
            /\ all_vars st' = list_to_set (checked_names expr) ∪ all_vars st
            /\ st' = set_all_vars (all_vars st') st
      end)
  /\ (forall name members st,
        is_identifier name = true ->
        Forall (fun m => contains "|" m = false /\ contains "." m = false) members ->
        members <> [] ->
        exists st',
          _expr_code (join "." (name :: members)) st =
          Ok ("do_dots(c_" ++ name ++ ", " ++ join ", " (map repr members) ++ ")", st')
          /\ all_vars st' = {[name]} ∪ all_vars st
          /\ st' = set_all_vars (all_vars st') st)
  /\ (forall (value : Type) (O : PyObject value) (h : Runtime.heap (value := value)),
        Runtime.__init__ "{{ 1bad }}" [] h =
        Raise (StencilError "invalid variable name: '1bad'")).
Proof.
  split; [|split].
  - intros expr st Hnl. rewrite <- (first_refused_one_line _ Hnl).
    rewrite (_expr_code_outcome expr st).
    destruct (first_refused (checked_names expr)); [reflexivity|].
    eexists. split; [reflexivity|]. split; reflexivity.
  - intros name members st Hn Hm Hne.
    rewrite (_expr_code_dotted name members st
               (is_identifier_without "|" name eq_refl Hn)
               (is_identifier_without "." name eq_refl Hn) Hm Hne).
    unfold bind. rewrite _variable_all, (is_identifier_ident_match name Hn).
    eexists. split; [reflexivity|]. split; reflexivity.
  - intros value O h. apply init_raises. vm_compute. reflexivity.
Qed.

Lemma names_and_filters_are_checked_witness :
  _expr_code "user.name|1bad|upper" fresh =
    Raise (StencilError "invalid variable name: '1bad'")
  /\ (exists st',
        _expr_code "user.1st|upper" fresh = Ok ("c_upper(do_dots(c_user, '1st'))", st')
        /\ all_vars st' = list_to_set ["user"; "upper"] ∪ all_vars fresh
        /\ st' = set_all_vars (all_vars st') fresh)
  /\ (exists st',
        _expr_code "a.1bad.b c" fresh = Ok ("do_dots(c_a, '1bad', 'b c')", st')
        /\ all_vars st' = {["a"]} ∪ all_vars fresh
        /\ st' = set_all_vars (all_vars st') fresh).
Proof.
  split; [|split].
  - refine (proj1 names_and_filters_are_checked "user.name|1bad|upper" fresh _).
    repeat constructor.
  - refine (proj1 names_and_filters_are_checked "user.1st|upper" fresh _).
    repeat constructor.
  - refine (proj1 (proj2 names_and_filters_are_checked) "a" ["1bad"; "b c"] fresh
              eq_refl _ _).
    + repeat constructor.
    + discriminate.
Defined.

(** C8.  The pipes are split off first: for a text [base] without a pipe
    and filters without a pipe, the expression base|f1|...|fn compiles
    [base] and then runs the loop over the filters.  The loop wraps the code
    in one call per filter, the first filter innermost, and leaves every
    filter in all_vars, nothing else changed.  A filter is registered as a
    name is: applying f as a filter and compiling f as an expression leave
    the same state, with f in all_vars.  After base|f1|...|fn compiled,
    all_vars holds the name of [base] and every filter besides what it
    held.  A dotted base compiles to one call of do_dots on the name, so
    a.b|f is f applied to the dotted resolution. *)
Theorem pipes_before_dots :
  (forall base filters st,
      contains "|" base = false ->
      Forall (fun f => contains "|" f = false) filters ->
      filters <> [] ->
      _expr_code (join "|" (base :: filters)) st =
      (code <- _expr_code base ;; foldM apply_filter code filters) st)
  /\ (forall code filters st,
        first_refused filters = None ->
        exists st',
          foldM apply_filter code filters st = Ok (filter_calls code filters, st')
          /\ all_vars st' = list_to_set filters ∪ all_vars st
          /\ (forall f, f ∈ filters -> f ∈ all_vars st')
          /\ st' = set_all_vars (all_vars st') st)
  /\ (forall f code st,
        is_identifier f = true ->
        exists st',
          apply_filter code f st = Ok ("c_" ++ f ++ "(" ++ code ++ ")", st')
          /\ _expr_code f st = Ok ("c_" ++ f, st')
          /\ all_vars st' = {[f]} ∪ all_vars st
          /\ f ∈ all_vars st')
  /\ (forall base filters st code st',
        contains "|" base = false ->
        Forall (fun f => contains "|" f = false) filters ->
        filters <> [] ->
        _expr_code (join "|" (base :: filters)) st = Ok (code, st') ->
        code = filter_calls (base_text base) filters
        /\ all_vars st' =
           {[hd EmptyString (split_on "." base)]} ∪ list_to_set filters ∪ all_vars st
        /\ (forall f, f ∈ filters -> f ∈ all_vars st'))
  /\ (forall name members st,
        contains "|" name = false -> contains "." name = false ->
        Forall (fun m => contains "|" m = false /\ contains "." m = false) members ->
        members <> [] ->
        _expr_code (join "." (name :: members)) st =
        (_variable name AllVars ;;
         ret ("do_dots(c_" ++ name ++ ", " ++ join ", " (map repr members) ++ ")")) st)
  /\ (exists st',
        _expr_code "a.b|f" fresh = Ok ("c_f(do_dots(c_a, 'b'))", st')
        /\ all_vars st' = {["a"; "f"]}
        /\ st' = set_all_vars (all_vars st') fresh)
  /\ (exists st',
        _expr_code "base|f1|f2" fresh = Ok ("c_f2(c_f1(c_base))", st')
        /\ all_vars st' = {["base"; "f1"; "f2"]}
        /\ st' = set_all_vars (all_vars st') fresh).
Proof.
  split; [|split; [|split; [|split; [|split; [|split]]]]].
  - exact _expr_code_piped.
  - intros code filters st Hok. rewrite foldM_apply_filter, Hok.
    eexists. split; [reflexivity|]. rewrite all_vars_set_all_vars.
    split; [reflexivity|]. split; [|reflexivity].
    intros f Hf. apply elem_of_list_to_set_union, Hf.
  - intros f code st Hf.
    pose proof (is_identifier_ident_match f Hf) as Hm.
    unfold apply_filter, _expr_code.
    rewrite (_expr_code_rec_name 2 f (is_identifier_without "|" f eq_refl Hf)
               (is_identifier_without "." f eq_refl Hf)).
    unfold bind. rewrite _variable_all, Hm. unfold ret.
    eexists. split; [reflexivity|]. split; [reflexivity|].
    rewrite all_vars_set_all_vars. split; [reflexivity | set_solver].
  - intros base filters st code st' Hb Hf Hne.
    rewrite (_expr_code_piped base filters st Hb Hf Hne).
    unfold bind, _expr_code. rewrite (_expr_code_rec_dots 1 base Hb).
    rewrite (_expr_code_rec_base base st Hb). cbv zeta.
    destruct (ident_match (hd EmptyString (split_on "." base))); [|discriminate].
    rewrite foldM_apply_filter.
    destruct (first_refused filters); [discriminate|].
    intros [= <- <-]. rewrite !all_vars_set_all_vars.
    split; [reflexivity|]. split; [set_solver|].
    intros f Hin. apply elem_of_list_to_set_union, Hin.
  - exact _expr_code_dotted.
  - eexists. split; [vm_compute; reflexivity|]. split; vm_compute; reflexivity.
  - eexists. split; [vm_compute; reflexivity|]. split; vm_compute; reflexivity.
Qed.

Lemma pipes_before_dots_witness :
  _expr_code "a.b|f|g" fresh =
    (code <- _expr_code "a.b" ;; foldM apply_filter code ["f"; "g"]) fresh
  /\ (exists st',
        foldM apply_filter "c_x" ["f"; "g"] fresh = Ok ("c_g(c_f(c_x))", st')
        /\ all_vars st' = list_to_set ["f"; "g"] ∪ all_vars fresh
        /\ (forall f, f ∈ ["f"; "g"] -> f ∈ all_vars st')
        /\ st' = set_all_vars (all_vars st') fresh)
  /\ (exists st',
        apply_filter "c_x" "upper" fresh = Ok ("c_upper(c_x)", st')
        /\ _expr_code "upper" fresh = Ok ("c_upper", st')
        /\ all_vars st' = {["upper"]} ∪ all_vars fresh
        /\ "upper" ∈ all_vars st')
  /\ ("c_g(c_f(do_dots(c_a, 'b')))" = filter_calls (base_text "a.b") ["f"; "g"]
      /\ all_vars (set_all_vars {["a"; "f"; "g"]} fresh) =
         {[hd EmptyString (split_on "." "a.b")]} ∪ list_to_set ["f"; "g"] ∪ all_vars fresh
      /\ (forall f, f ∈ ["f"; "g"] -> f ∈ all_vars (set_all_vars {["a"; "f"; "g"]} fresh)))
  /\ _expr_code "a.b.c" fresh =
     (_variable "a" AllVars ;; ret "do_dots(c_a, 'b', 'c')") fresh.
Proof.
  split; [|split; [|split; [|split]]].
  - refine (proj1 pipes_before_dots "a.b" ["f"; "g"] fresh eq_refl _ _).
    + repeat constructor.
    + discriminate.
  - exact (proj1 (proj2 pipes_before_dots) "c_x" ["f"; "g"] fresh eq_refl).
  - exact (proj1 (proj2 (proj2 pipes_before_dots)) "upper" "c_x" fresh eq_refl).
  - refine (proj1 (proj2 (proj2 (proj2 pipes_before_dots))) "a.b" ["f"; "g"] fresh
              "c_g(c_f(do_dots(c_a, 'b')))" (set_all_vars {["a"; "f"; "g"]} fresh)
              eq_refl _ _ _).
    + repeat constructor.
    + discriminate.
    + vm_compute. reflexivity.
  - refine (proj1 (proj2 (proj2 (proj2 (proj2 pipes_before_dots)))) "a" ["b"; "c"] fresh
              eq_refl eq_refl _ _).
    + repeat constructor.
    + discriminate.
Defined.

End StencilFacts.

(** ** Facts about the runtime *)

Module RuntimeFacts.
Import PyStr Py Builder Host.
Import Runtime.

Section DotsFacts.
Context {value : Type} `{PyObject value}.

Lemma rbind_assoc {A B C} (r : result A) (f : A -> result B) (g : B -> result C) :
  rbind (rbind r f) g = rbind r (fun a => rbind (f a) g).
Proof. destruct r; reflexivity. Qed.

Lemma _do_dots_app (v : value) (ds1 ds2 : list string) :
  _do_dots v (ds1 ++ ds2) = rbind (_do_dots v ds1) (fun v' => _do_dots v' ds2).
Proof.
  revert v. induction ds1 as [|d ds1 IH]; intros v; [reflexivity|].
  cbn [app _do_dots]. rewrite rbind_assoc.
  destruct (dot_step v d) as [v'|e]; [|reflexivity]. cbn [rbind]. apply IH.
Qed.

End DotsFacts.

(** C9.  The resolver takes the names from left to right.  For each name it
    reads the attribute; when that lookup fails (getattr raises
    AttributeError) it reads the subscript instead; when the subscript
    fails too, that failure is what the call raises.  After a lookup that
    succeeds, a callable result is called without arguments and the result
    of the call is the value the next name is applied to.  An exception of
    another class raised while reading the attribute is not caught. *)
Theorem do_dots_resolves_left_to_right :
  forall (value : Type) (O : PyObject value),
    (forall v : value, _do_dots v [] = Ok v)
    /\ (forall (v : value) ds1 ds2,
          _do_dots v (ds1 ++ ds2) = rbind (_do_dots v ds1) (fun v' => _do_dots v' ds2))
    /\ (forall (v : value) dot rest a,
          py_getattr v dot = Ok a ->
          _do_dots v (dot :: rest) =
          rbind (if py_callable a then py_call a else Ok a)
                (fun v' => _do_dots v' rest))
    /\ (forall (v : value) dot rest a,
          py_getattr v dot = Raise AttributeError ->
          py_getitem v dot = Ok a ->
          _do_dots v (dot :: rest) =
          rbind (if py_callable a then py_call a else Ok a)
                (fun v' => _do_dots v' rest))
    /\ (forall (v : value) dot rest e,
          py_getattr v dot = Raise AttributeError ->
          py_getitem v dot = Raise e ->
          _do_dots v (dot :: rest) = Raise e)
    /\ (forall (v : value) dot rest e,
          py_getattr v dot = Raise e ->
          e <> AttributeError ->
          _do_dots v (dot :: rest) = Raise e).
Proof.
  intros value O. split; [reflexivity|]. split; [apply _do_dots_app|].
  split; [|split; [|split]].
  - intros v dot rest a Ha. cbn [_do_dots]. unfold dot_step. rewrite Ha. reflexivity.
  - intros v dot rest a Ha Hi. cbn [_do_dots]. unfold dot_step. rewrite Ha, Hi. reflexivity.
  - intros v dot rest e Ha Hi. cbn [_do_dots]. unfold dot_step. rewrite Ha, Hi. reflexivity.
  - intros v dot rest e Ha Hne. cbn [_do_dots]. unfold dot_step. rewrite Ha.
    destruct e; try reflexivity. contradiction.
Qed.


Lemma do_dots_resolves_left_to_right_witness :
  _do_dots users ["u"; "name"] = Ok (VStr "Ann")
  /\ _do_dots ann ["name"] = Ok (VStr "Ann")
  /\ _do_dots users ["u"] = Ok ann
  /\ _do_dots users ["v"; "name"] = Raise (OtherError "KeyError")
  /\ _do_dots (VFails "ValueError") ["name"] = Raise (OtherError "ValueError").
Proof.
  destruct (do_dots_resolves_left_to_right pyval pyval_object)
    as (_ & Happ & Hattr & Hitem & Hboth & Hother).
  split; [|split; [|split; [|split]]].
  - exact (Happ users ["u"] ["name"]).
  - exact (Hattr ann "name" [] (VFun (VStr "Ann")) eq_refl).
  - exact (Hitem users "u" [] ann eq_refl eq_refl).
  - exact (Hboth users "v" ["name"] (OtherError "KeyError") eq_refl eq_refl).
  - refine (Hother (VFails "ValueError") "name" [] (OtherError "ValueError") eq_refl _).
    discriminate.
Defined.

Section RenderFacts.
Context {value : Type} `{PyObject value}.

Lemma get_dict_Ok (h : heap (value := value)) ref d :
  get_dict h ref = Ok d <-> h !! ref = Some (ODict d).
Proof.
  unfold get_dict. destruct (h !! ref) as [[d'|t]|]; split; intros E;
    try discriminate; congruence.
Qed.

(** Adding the new dict, and writing to it, leaves every object of the old
    store alone. *)
Lemma store_extended (h : heap (value := value)) (o : object) ref obj :
  h !! ref = Some obj -> (h ++ [o])%list !! ref = Some obj.
Proof. intros Hl. apply lookup_app_l_Some. exact Hl. Qed.

Lemma store_overwritten (h : heap (value := value)) (o o' : object) ref obj :
  h !! ref = Some obj ->
  (<[List.length h := o']> (h ++ [o])%list) !! ref = Some obj.
Proof.
  intros Hl. pose proof (lookup_lt_Some _ _ _ Hl) as Hlt.
  rewrite list_lookup_insert_ne by lia. apply lookup_app_l_Some. exact Hl.
Qed.

Lemma insert_new (h : heap (value := value)) (o o' : object) :
  <[List.length h := o']> (h ++ [o])%list = (h ++ [o'])%list.
Proof.
  rewrite insert_app_r_alt by lia. rewrite Nat.sub_diag. reflexivity.
Qed.

Lemma render_frame (self : nat) (ctx : option nat) (h : heap (value := value)) :
  forall ref obj, h !! ref = Some obj -> snd (render self ctx h) !! ref = Some obj.
Proof.
  intros ref obj Hl. unfold render.
  destruct (h !! self) as [[d|t]|]; try exact Hl.
  destruct (get_dict h (context t)) as [base|e]; [|exact Hl].
  destruct ctx as [c|]; cbn [snd].
  - destruct (get_dict h c) as [d|e]; cbn [snd].
    + destruct (decide (d = ∅));
        [apply store_extended | apply store_overwritten]; exact Hl.
    + apply store_extended; exact Hl.
  - apply store_extended; exact Hl.
Qed.

Lemma render_overlay (self : nat) (ctx : option nat) (h : heap (value := value)) t base :
  h !! self = Some (OTemplate t) ->
  h !! context t = Some (ODict base) ->
  match ctx with
  | None => snd (render self ctx h) = (h ++ [ODict base])%list
  | Some c =>
      forall d, h !! c = Some (ODict d) ->
                snd (render self ctx h) = (h ++ [ODict (d ∪ base)])%list
  end.
Proof.
  intros Hs Hb. unfold render. rewrite Hs.
  rewrite (proj2 (get_dict_Ok h (context t) base) Hb).
  destruct ctx as [c|]; [|reflexivity].
  intros d Hd. rewrite (proj2 (get_dict_Ok h c d) Hd). cbn [snd].
  destruct (decide (d = ∅)) as [->|Hne].
  - rewrite (left_id_L ∅ (∪) base). reflexivity.
  - apply insert_new.
Qed.

End RenderFacts.

(** C10.  A call of render changes no object of the store: the dict the
    caller passes, the template and its base context are after the call
    what they were before it.  The call adds one object, the per-call
    context: a copy of the base context with the caller's entries laid over
    it. *)
Theorem render_changes_no_object :
  forall (value : Type) (O : PyObject value)
         (self : nat) (ctx : option nat) (h : heap (value := value)),
    (forall ref obj, h !! ref = Some obj ->
                     snd (render self ctx h) !! ref = Some obj)
    /\ (forall t base,
          h !! self = Some (OTemplate t) ->
          h !! context t = Some (ODict base) ->
          match ctx with
          | None => snd (render self ctx h) = (h ++ [ODict base])%list
          | Some c =>
              forall d, h !! c = Some (ODict d) ->
                        snd (render self ctx h) = (h ++ [ODict (d ∪ base)])%list
          end).
Proof.
  intros value O self ctx h. split.
  - apply render_frame.
  - intros t base. apply render_overlay.
Qed.

Lemma render_changes_no_object_witness :
  snd (render 1 (Some 2) sample_heap) !! 2 = Some (ODict {["y" := VStr "yo"]})
  /\ snd (render 1 (Some 2) sample_heap) !! 0 = Some (ODict {["x" := VStr "hi"]})
  /\ snd (render 1 (Some 2) sample_heap) =
     (sample_heap ++ [ODict ({["y" := VStr "yo"]} ∪ {["x" := VStr "hi"]})])%list.
Proof.
  destruct (render_changes_no_object pyval pyval_object 1 (Some 2) sample_heap)
    as [Hframe Hnew].
  split; [|split].
  - exact (Hframe 2 _ eq_refl).
  - exact (Hframe 0 _ eq_refl).
  - exact (Hnew _ _ eq_refl eq_refl _ eq_refl).
Defined.

End RuntimeFacts.

(** ** More facts about the tokenizer *)

Module TokenizerFacts.
Import PyStr Stencil PyStrFacts StencilFacts.

Lemma append_cons (c : ascii) (s t : string) : String c s ++ t = String c (s ++ t).
Proof. reflexivity. Qed.

Lemma append_empty_r (s : string) : s ++ EmptyString = s.
Proof. induction s as [|c s IH]; [reflexivity|]. rewrite append_cons, IH. reflexivity. Qed.

Lemma append_assoc (s t u : string) : (s ++ t) ++ u = s ++ t ++ u.
Proof.
  induction s as [|c s IH]; [reflexivity|]. rewrite !append_cons, IH. reflexivity.
Qed.

Lemma take_drop (n : nat) (s : string) : take n s ++ drop n s = s.
Proof.
  revert s. induction n as [|n IH]; intros s; [reflexivity|].
  destruct s as [|c s]; [reflexivity|]. cbn [take drop]. rewrite append_cons, IH. reflexivity.
Qed.

Lemma length_drop (n : nat) (s : string) :
  String.length (drop n s) = (String.length s - n)%nat.
Proof.
  revert s. induction n as [|n IH]; intros s; [cbn; lia|].
  destruct s as [|c s]; [reflexivity|]. cbn. apply IH.
Qed.

Lemma startswith_length (pre s : string) :
  startswith pre s = true -> (String.length pre <= String.length s)%nat.
Proof.
  revert s. induction pre as [|a pre IH]; intros s H; [cbn; lia|].
  destruct s as [|b s]; [discriminate|]. cbn [startswith] in H.
  apply andb_prop in H. destruct H as [_ H]. cbn. specialize (IH s H). lia.
Qed.

Lemma find_close_bound (close s : string) (k : nat) :
  find_close close s = Some k ->
  (k + String.length close <= String.length s)%nat.
Proof.
  revert k. induction s as [|c s IH]; intros k; cbn [find_close].
  - destruct (startswith close EmptyString) eqn:E; [|discriminate].
    intros [= <-]. apply startswith_length in E. cbn in *. lia.
  - destruct (startswith close (String c s)) eqn:E.
    + intros [= <-]. apply startswith_length in E. cbn in *. lia.
    + destruct (find_close close s) as [k'|]; [|discriminate].
      intros [= <-]. specialize (IH k' eq_refl). cbn. lia.
Qed.

Lemma match_group_bound opener closer s g n :
  match_group opener closer s = Some (g, n) ->
  g = take n s /\ (n <= String.length s)%nat.
Proof.
  unfold match_group. destruct (startswith opener s) eqn:Eo; [|discriminate].
  destruct (find_close closer _) as [k|] eqn:Ek; [|discriminate].
  intros [= <- <-]. split; [reflexivity|].
  apply find_close_bound in Ek. rewrite length_drop in Ek.
  apply startswith_length in Eo. lia.
Qed.

Lemma match_at_Some s g n :
  match_at s = Some (g, n) ->
  exists s1, s = String " " s1 /\ g = take n s1 /\ (n <= String.length s1)%nat.
Proof.
  unfold match_at. destruct s as [|c s1]; [discriminate|].
  destruct (Ascii.eqb c " ") eqn:Ec; [|discriminate].
  apply Ascii.eqb_eq in Ec. subst c. intros H. exists s1. split; [reflexivity|].
  destruct (match_group "{{ " " }} " s1) as [m1|] eqn:E1.
  { injection H as ->. apply match_group_bound in E1. exact E1. }
  destruct (match_group " {% " " %} " s1) as [m2|] eqn:E2.
  { injection H as ->. apply match_group_bound in E2. exact E2. }
  apply match_group_bound in H. exact H.
Qed.

Lemma split_scan_rejoin s : forall skip lit,
  (skip <= String.length s)%nat ->
  rejoin (split_scan s skip lit) = lit ++ drop skip s.
Proof.
  induction s as [|c s IH]; intros skip lit Hk.
  - cbn in Hk. replace skip with O by lia. cbn. symmetry. apply append_empty_r.
  - destruct skip as [|k]; cbn [split_scan].
    + destruct (match_at (String c s)) as [[g n]|] eqn:E.
      * apply match_at_Some in E. destruct E as (s1 & [= -> <-] & -> & Hn).
        cbn [rejoin drop]. rewrite (IH n EmptyString Hn). cbn [append].
        rewrite take_drop. reflexivity.
      * rewrite (IH O (lit ++ chr c)) by lia. cbn [drop].
        rewrite append_assoc. reflexivity.
    + cbn in Hk. rewrite (IH k lit) by lia. reflexivity.
Qed.

(** X1.  re.split loses nothing of the text but the blank the pattern
    takes before each match: the literals and the captured groups, put
    together again with one blank before each group, are the text. *)
Theorem re_split_loses_only_the_blank (text : string) :
  rejoin (re_split text) = text.
Proof. unfold re_split. rewrite split_scan_rejoin by lia. reflexivity. Qed.

Lemma match_at_no_blank c s : Ascii.eqb c " " = false -> match_at (String c s) = None.
Proof. intros H. cbn [match_at]. rewrite H. reflexivity. Qed.

Lemma split_scan_no_blank s : forall lit,
  contains " " s = false -> split_scan s O lit = [lit ++ s].
Proof.
  induction s as [|c s IH]; intros lit H.
  - cbn. rewrite append_empty_r. reflexivity.
  - rewrite contains_cons in H. apply orb_false_elim in H. destruct H as [Hc Hs].
    cbn [split_scan]. rewrite (match_at_no_blank c s Hc).
    rewrite (IH _ Hs), append_assoc. reflexivity.
Qed.

(** X2.  A text without a blank is never split: whatever delimiters it
    holds, it is one token. *)
Theorem text_without_blank_is_one_token (text : string) :
  contains " " text = false -> re_split text = [text].
Proof. intros H. unfold re_split. rewrite split_scan_no_blank by exact H. reflexivity. Qed.

Lemma text_without_blank_is_one_token_witness :
  re_split "{%if(x)%}yes{%endif%}" = ["{%if(x)%}yes{%endif%}"].
Proof. exact (text_without_blank_is_one_token "{%if(x)%}yes{%endif%}" eq_refl). Defined.

End TokenizerFacts.

(** ** More facts about the token loop *)

Module ScanFacts.
Import PyStr Py Builder Host Stencil PyStrFacts StencilFacts.

Lemma step_shape_refl st : step_shape st st [].
Proof.
  unfold step_shape. repeat split; try reflexivity.
  exists []. cbn. rewrite !app_nil_r. split; reflexivity.
Qed.

Lemma emitted_all_app p q : emitted_all (p ++ q) = (emitted_all p ++ emitted_all q)%list.
Proof. unfold emitted_all. apply flat_map_app. Qed.

Lemma step_shape_trans st st1 st2 f1 f2 :
  step_shape st st1 f1 -> step_shape st1 st2 f2 -> step_shape st st2 (f1 ++ f2).
Proof.
  intros (V1 & L1 & A1 & S1 & a1 & C1 & B1) (V2 & L2 & A2 & S2 & a2 & C2 & B2).
  unfold step_shape. repeat split; try congruence.
  - set_solver.
  - exists (a1 ++ a2)%list. split.
    + rewrite C2, C1, map_app, app_assoc. reflexivity.
    + rewrite emitted_all_app, <- app_assoc, B2, app_assoc, B1, <- app_assoc. reflexivity.
Qed.

Lemma flush_output_shape st :
  exists st1, flush_output st = Ok (tt, st1) /\ step_shape st st1 []
    /\ buffer st1 = [] /\ ops_stack st1 = ops_stack st
    /\ all_vars st1 = all_vars st
    /\ _indent (code st1) = _indent (code st).
Proof.
  unfold flush_output, bind, gets.
  destruct (buffer st) as [|f [|g fs]] eqn:Eb; eexists; (split; [reflexivity|]);
    (split; [|repeat split; reflexivity]); unfold step_shape;
    cbn [vars_code loop_vars all_vars code buffer set_buffer set_code add_line
         INDENT_STEP _code]; repeat split; try reflexivity.
  - exists []. cbn. rewrite Eb, app_nil_r. split; reflexivity.
  - exists [(_indent (code st), LAppend f)]. rewrite Eb. split; reflexivity.
  - exists [(_indent (code st), LExtend (f :: g :: fs))]. rewrite Eb. cbn.
    rewrite !app_nil_r. split; reflexivity.
Qed.

Lemma compile_tag_shape token st st' :
  compile_tag token st = Ok (tt, st') -> step_shape st st' [].
Proof.
  intros H. unfold compile_tag in H.
  apply bind_Ok_inv in H. destruct H as (u & st1' & Hf & H).
  destruct (flush_output_shape st) as (st1 & Hfl & Hsh & Hb & _).
  rewrite Hfl in Hf. injection Hf as <- <-.
  change (@nil frag) with (@nil frag ++ [])%list.
  eapply step_shape_trans; [exact Hsh|]. clear Hsh Hfl st.
  cbv zeta in H.
  apply bind_Ok_inv in H. destruct H as (w0 & st2 & Hw & H).
  apply word_Ok in Hw. destruct Hw as [Hw0 ->].
  destruct (String.eqb w0 "if").
  { apply bind_Ok_inv in H. destruct H as (? & st2 & Hwh & H).
    apply when_error_Ok in Hwh. destruct Hwh as [_ ->].
    apply bind_Ok_inv in H. destruct H as (? & st2 & Hp & H).
    injection Hp as _ <-.
    apply bind_Ok_inv in H. destruct H as (w1 & st3 & Hw1 & H).
    apply word_Ok in Hw1. destruct Hw1 as [_ ->].
    apply bind_Ok_inv in H. destruct H as (expr & st3 & He & H).
    rewrite _expr_code_outcome in He.
    destruct (first_refused (checked_names w1)); [discriminate|].
    injection He as <- <-.
    injection H as <-.
    unfold step_shape.
    cbn [vars_code loop_vars all_vars code buffer set_buffer set_code add_line
         set_all_vars set_ops_stack indent INDENT_STEP _code _indent].
    split; [reflexivity|]. split; [reflexivity|]. split; [set_solver|].
    split; [reflexivity|].
    exists [(_indent (code st1), LIf (expr_text w1))]. cbn.
    rewrite Hb. split; reflexivity. }
  destruct (String.eqb w0 "for").
  { destruct (negb (len (split_ws (strip (slice_2_m2 token))) =? 4)%nat
            || negb (String.eqb (nth 2 (split_ws (strip (slice_2_m2 token))) EmptyString) "in")).
    - cbn in H. discriminate.
    - injection H as <-. apply step_shape_refl. }
  destruct (startswith "end" w0).
  { apply bind_Ok_inv in H. destruct H as (? & st2 & Hwh & H).
    apply when_error_Ok in Hwh. destruct Hwh as [_ ->].
    cbv zeta in H.
    apply bind_Ok_inv in H. destruct H as (stack & st2 & Hg & H).
    injection Hg as <- <-.
    apply bind_Ok_inv in H. destruct H as (? & st2 & Hwh & H).
    apply when_error_Ok in Hwh. destruct Hwh as [Hne ->].
    apply bind_Ok_inv in H. destruct H as (start & st2 & Hpop & H).
    unfold ops_pop, bind, gets in Hpop.
    destruct (ops_stack st1) as [|top rest] eqn:Hstack; [discriminate|].
    cbn in Hpop. injection Hpop as <- <-.
    apply bind_Ok_inv in H. destruct H as (? & st2 & Hwh & H).
    apply when_error_Ok in Hwh. destruct Hwh as [_ ->].
    injection H as <-.
    unfold step_shape.
    cbn [vars_code loop_vars all_vars code buffer set_buffer set_code
         set_ops_stack dedent INDENT_STEP _code _indent].
    repeat split; try reflexivity.
    exists []. cbn. rewrite !app_nil_r. split; reflexivity. }
  cbn in H. discriminate.
Qed.

Lemma compile_token_shape token st st' :
  compile_token token st = Ok (tt, st') -> step_shape st st' (token_frags token).
Proof.
  intros H. unfold compile_token in H. unfold token_frags.
  destruct (startswith "{#" token).
  { injection H as <-. apply step_shape_refl. }
  destruct (startswith "{{" token).
  { apply bind_Ok_inv in H. destruct H as (expr & st1 & He & H).
    rewrite _expr_code_outcome in He.
    destruct (first_refused _); [discriminate|].
    injection He as <- <-. injection H as <-.
    unfold step_shape.
    cbn [vars_code loop_vars all_vars code buffer set_buffer set_all_vars
         INDENT_STEP _code].
    split; [reflexivity|]. split; [reflexivity|]. split; [set_solver|].
    split; [reflexivity|].
    exists []. cbn. rewrite app_nil_r. split; reflexivity. }
  destruct (startswith "{%" token).
  { eapply compile_tag_shape; eassumption. }
  destruct (is_empty token); cbn in H; injection H as <-; [apply step_shape_refl|].
  unfold step_shape. cbn [vars_code loop_vars all_vars code buffer set_buffer INDENT_STEP _code].
  repeat split; try reflexivity.
  exists []. cbn. rewrite app_nil_r. split; reflexivity.
Qed.

Lemma compile_tokens_shape tokens : forall st st',
  forM_ compile_token tokens st = Ok (tt, st') ->
  step_shape st st' (flat_map token_frags tokens).
Proof.
  induction tokens as [|t ts IH]; intros st st' H.
  - injection H as <-. apply step_shape_refl.
  - cbn [forM_] in H. apply bind_Ok_inv in H. destruct H as ([] & st1 & Ht & H).
    cbn [flat_map]. eapply step_shape_trans.
    + eapply compile_token_shape. exact Ht.
    + apply IH. exact H.
Qed.

Lemma lines_blocks cb (added : list (Z * line)) code' i s :
  code' = (_code cb ++ map as_block added)%list ->
  lines (mkCodeBuilder i code' s) = (lines cb ++ added)%list.
Proof.
  intros ->. rewrite !lines_concat. cbn [_code]. rewrite map_app, concat_app.
  f_equal. induction added as [|[j l] added IH]; [reflexivity|].
  cbn. rewrite IH. reflexivity.
Qed.

Lemma step_shape_output st st' frs :
  step_shape st st' frs -> output_of st' = (output_of st ++ frs)%list.
Proof.
  intros (_ & _ & _ & _ & added & Hc & Hb). unfold output_of.
  destruct (code st') as [i c s] eqn:E. cbn [_code] in Hc.
  rewrite (lines_blocks (code st) added c i s Hc).
  rewrite emitted_all_app, <- !app_assoc, Hb. reflexivity.
Qed.

(** X3.  While tokens compile, no output entry is lost, repeated or moved:
    the entries appended by the emitted lines followed by the entries
    pending in the buffer grow by exactly the entries of the tokens, in the
    order of the tokens (a literal as it is, an expression as str of its
    code, nothing for a comment or a tag). *)
Theorem fragments_stay_in_document_order tokens st st' :
  forM_ compile_token tokens st = Ok (tt, st') ->
  output_of st' = (output_of st ++ flat_map token_frags tokens)%list.
Proof. intros H. apply step_shape_output, compile_tokens_shape, H. Qed.

Lemma preamble_state st0 :
  preamble st0 =
  Ok (tt, mkState (all_vars st0) (loop_vars st0) preamble_code 1 [] []).
Proof. reflexivity. Qed.

Lemma scan_shape text st0 st :
  scan text st0 = Ok (tt, st) ->
  step_shape (mkState (all_vars st0) (loop_vars st0) preamble_code 1 [] []) st
    (flat_map token_frags (re_split text)).
Proof.
  unfold scan, bind. rewrite preamble_state. apply compile_tokens_shape.
Qed.

Lemma fragments_stay_in_document_order_witness :
  exists st,
    forM_ compile_token ["Hi "; "{# note #}"; "{% for a in b %}"; "there"] fresh
    = Ok (tt, st)
    /\ output_of st =
       (output_of fresh
        ++ flat_map token_frags ["Hi "; "{# note #}"; "{% for a in b %}"; "there"])%list.
Proof.
  destruct (forM_ compile_token ["Hi "; "{# note #}"; "{% for a in b %}"; "there"] fresh)
    as [[[] st]|e] eqn:E.
  - exists st. split; [reflexivity|].
    exact (fragments_stay_in_document_order _ fresh st E).
  - vm_compute in E. discriminate.
Defined.

(** X4.  No template registers a loop variable: the scan of any text that
    compiles leaves loop_vars as it found it. *)
Theorem scan_registers_no_loop_variable text st0 st :
  scan text st0 = Ok (tt, st) -> loop_vars st = loop_vars st0.
Proof. intros H. apply scan_shape in H. destruct H as (_ & L & _). exact L. Qed.

Lemma finish_Ok_no_names st r st' :
  scan_inv st -> finish st = Ok (r, st') -> all_vars st ∖ loop_vars st = ∅.
Proof.
  intros Hinv Hf. destruct (decide (all_vars st ∖ loop_vars st = ∅)) as [E|E]; [exact E|].
  rewrite (finish_bound_names st Hinv E) in Hf. discriminate.
Qed.

Lemma final_code_no_names st :
  all_vars st ∖ loop_vars st = ∅ ->
  final_code st = dedent (add_line LReturn (code st)).
Proof.
  intros E. unfold final_code. rewrite E.
  replace (elements (∅ : gset string)) with (@nil string) by (symmetry; apply elements_empty).
  reflexivity.
Qed.

Lemma scan_registers_no_loop_variable_witness :
  exists st, scan "{% for n in items %}" fresh = Ok (tt, st)
             /\ loop_vars st = loop_vars fresh.
Proof.
  destruct (scan "{% for n in items %}" fresh) as [[[] st]|e] eqn:E.
  - exists st. split; [reflexivity|].
    exact (scan_registers_no_loop_variable "{% for n in items %}" fresh st E).
  - vm_compute in E. discriminate.
Defined.

Lemma py_exec_Ok p r :
  py_exec p = Ok r -> exists i body, p = (i, LDef) :: body /\ r = map snd body.
Proof.
  unfold py_exec. destruct (py_syntax_ok p); [|discriminate].
  destruct p as [|[i l] body]; [discriminate|].
  destruct l; try discriminate. intros [= <-]. eauto.
Qed.

Lemma compiled_body text st0 r st :
  _compile_template text st0 = Ok (r, st) ->
  exists rest, r = LResult :: LAppendAlias :: LExtendAlias :: LStrAlias :: rest.
Proof.
  intros H. destruct (compile_template_inv _ _ _ _ H) as (st1 & Hs & Hf).
  pose proof (scan_scan_inv _ _ _ Hs) as Hinv.
  pose proof (finish_Ok_no_names _ _ _ Hinv Hf) as Hn.
  rewrite finish_unfold, (final_code_no_names _ Hn) in Hf.
  unfold get_globals in Hf.
  destruct (_indent _ =? 0)%Z; [|discriminate].
  destruct (py_exec _) as [r'|] eqn:Ex; [|discriminate].
  injection Hf as <- _.
  apply py_exec_Ok in Ex. destruct Ex as (i & body & Hl & ->).
  apply scan_shape in Hs. destruct Hs as (_ & _ & _ & _ & added & Hc & _).
  cbn [code] in Hc.
  assert (Hlines : lines (dedent (add_line LReturn (code st1))) =
                   (lines preamble_code ++ added ++ [(_indent (code st1), LReturn)])%list).
  { unfold dedent, add_line. cbn [_code _indent INDENT_STEP].
    rewrite (lines_blocks preamble_code (added ++ [(_indent (code st1), LReturn)]));
      [reflexivity|].
    rewrite Hc, map_app, <- app_assoc. reflexivity. }
  rewrite Hlines in Hl. cbn in Hl. injection Hl as _ <-. cbn. eauto.
Qed.

(** A template that compiles from the state of [__init__] has referenced
    no name. *)
Lemma compiled_template_has_no_names text r st :
  _compile_template text fresh = Ok (r, st) ->
  all_vars st = ∅ /\ loop_vars st = ∅ /\ ops_stack st = [] .
Proof.
  intros H. destruct (compile_template_inv _ _ _ _ H) as (st1 & Hs & Hf).
  pose proof (scan_scan_inv _ _ _ Hs) as Hinv.
  pose proof (finish_Ok_no_names _ _ _ Hinv Hf) as Hn.
  pose proof (scan_shape _ _ _ Hs) as (_ & L & _). cbn in L.
  rewrite (finish_keeps_state _ _ _ Hf). cbn [all_vars loop_vars ops_stack set_code].
  rewrite L in *. split; [set_solver|]. split; [reflexivity|].
  destruct (ops_stack st1) eqn:E; [reflexivity|].
  rewrite finish_open_block in Hf; [discriminate | exact Hinv | congruence].
Qed.

Lemma compile_tag_words token st st1 :
  flush_output st = Ok (tt, st1) ->
  compile_tag token st =
  (let words := tag_words token in
   w0 <- word 0 words ;;
   if String.eqb w0 "if" then
     when (negb (len words =? 2)%nat) (_error "invalid syntax: if" token) ;;
     ops_push "if" ;;
     w1 <- word 1 words ;;
     expr <- _expr_code w1 ;;
     code_add_line (LIf expr) ;;
     code_indent
   else if String.eqb w0 "for" then
     when (negb (len words =? 4)%nat
           || negb (String.eqb (nth 2 words EmptyString) "in"))
       (_error "invalid syntax: for" token ;;
        ops_push "for" ;;
        w1 <- word 1 words ;;
        _variable w1 LoopVars ;;
        w3 <- word 3 words ;;
        expr <- _expr_code w3 ;;
        code_add_line (LFor w1 expr) ;;
        code_indent)
   else if startswith "end" w0 then
     when (negb (len words =? 1)%nat) (_error "invalid syntax: end" token) ;;
     let end_ := drop 3 w0 in
     stack <- gets ops_stack ;;
     when (match stack with [] => true | _ => false end)
       (_error "no opening tag for end" token) ;;
     start <- ops_pop ;;
     when (negb (String.eqb start end_))
       (_error ("mismatched end tag, expected end" ++ start) end_) ;;
     code_dedent
   else
     _error "invalid tag" token) st1.
Proof. intros Hf. unfold compile_tag. unfold bind at 1. rewrite Hf. reflexivity. Qed.

Lemma flush_output_Ok st : exists st1, flush_output st = Ok (tt, st1).
Proof. destruct (flush_output_shape st) as (st1 & H & _). eauto. Qed.

(** X5.  A tag whose inside is empty or blank raises IndexError, not the
    templating error: the first word is read before any check. *)
Theorem tag_without_words_raises_IndexError token st :
  startswith "{%" token = true ->
  tag_words token = [] ->
  compile_token token st = Raise IndexError.
Proof.
  intros Ht Hw. rewrite (tag_token_dispatch token Ht).
  destruct (flush_output_Ok st) as (st1 & Hf).
  rewrite (compile_tag_words token st st1 Hf), Hw. reflexivity.
Qed.

Lemma tag_without_words_raises_IndexError_witness :
  compile_token "{%   %}" fresh = Raise IndexError.
Proof. exact (tag_without_words_raises_IndexError "{%   %}" fresh eq_refl eq_refl). Defined.

(** X6.  A tag whose first word is not if or for and does not start with
    end raises the templating error 'invalid tag' with the token quoted;
    else and elif are such words. *)
Theorem unknown_tag_is_refused token w ws st :
  startswith "{%" token = true ->
  tag_words token = w :: ws ->
  w <> "if" -> w <> "for" -> startswith "end" w = false ->
  compile_token token st = Raise (StencilError ("invalid tag: " ++ repr token)).
Proof.
  intros Ht Hw Hif Hfor Hend. rewrite (tag_token_dispatch token Ht).
  destruct (flush_output_Ok st) as (st1 & Hf).
  rewrite (compile_tag_words token st st1 Hf), Hw. cbv zeta.
  unfold bind at 1. cbn [word nth_error]. unfold ret at 1.
  apply String.eqb_neq in Hif, Hfor. rewrite Hif, Hfor, Hend. reflexivity.
Qed.

Lemma unknown_tag_is_refused_witness :
  compile_token "{% else %}" fresh =
  Raise (StencilError "invalid tag: '{% else %}'").
Proof.
  refine (unknown_tag_is_refused "{% else %}" "else" [] fresh eq_refl eq_refl _ _ eq_refl);
    discriminate.
Defined.

(** X7.  The word counts of the tags: an if tag without exactly one word
    after if, a for tag that is not four words with in as the third, and an
    end tag with anything after its first word raise the templating error
    'invalid syntax: if', 'invalid syntax: for' and 'invalid syntax: end',
    each with the token quoted, in any state. *)
Theorem tag_syntax_errors :
  (forall token ws st,
      startswith "{%" token = true ->
      tag_words token = "if" :: ws ->
      List.length ws <> 1%nat ->
      compile_token token st =
      Raise (StencilError ("invalid syntax: if: " ++ repr token)))
  /\ (forall token ws st,
        startswith "{%" token = true ->
        tag_words token = "for" :: ws ->
        List.length ws <> 3%nat \/ nth 1 ws EmptyString <> "in" ->
        compile_token token st =
        Raise (StencilError ("invalid syntax: for: " ++ repr token)))
  /\ (forall token w x ws st,
        startswith "{%" token = true ->
        tag_words token = w :: x :: ws ->
        startswith "end" w = true ->
        compile_token token st =
        Raise (StencilError ("invalid syntax: end: " ++ repr token))).
Proof.
  split; [|split].
  - intros token ws st Ht Hw Hn. rewrite (tag_token_dispatch token Ht).
    destruct (flush_output_Ok st) as (st1 & Hf).
    rewrite (compile_tag_words token st st1 Hf), Hw. cbv zeta.
    unfold bind at 1. cbn [word nth_error]. unfold ret at 1.
    cbn [String.eqb Ascii.eqb Bool.eqb]. cbn [len List.length].
    destruct (S (List.length ws) =? 2)%nat eqn:E.
    + apply Nat.eqb_eq in E. lia.
    + reflexivity.
  - intros token ws st Ht Hw Hn. rewrite (tag_token_dispatch token Ht).
    destruct (flush_output_Ok st) as (st1 & Hf).
    rewrite (compile_tag_words token st st1 Hf), Hw. cbv zeta.
    unfold bind at 1. cbn [word nth_error]. unfold ret at 1.
    cbn [String.eqb Ascii.eqb Bool.eqb]. cbn [len List.length].
    assert (Hc : negb (S (List.length ws) =? 4)%nat
                 || negb (String.eqb (nth 2 ("for" :: ws) EmptyString) "in") = true).
    { destruct Hn as [Hn|Hn].
      - destruct (S (List.length ws) =? 4)%nat eqn:E; [|reflexivity].
        apply Nat.eqb_eq in E. lia.
      - apply orb_true_iff. right. cbn [nth]. apply String.eqb_neq in Hn.
        rewrite Hn. reflexivity. }
    rewrite Hc. reflexivity.
  - intros token w x ws st Ht Hw He. rewrite (tag_token_dispatch token Ht).
    destruct (flush_output_Ok st) as (st1 & Hf).
    rewrite (compile_tag_words token st st1 Hf), Hw. cbv zeta.
    unfold bind at 1. cbn [word nth_error]. unfold ret at 1.
    destruct (end_word_not_opener w He) as [-> ->]. rewrite He. reflexivity.
Qed.

Lemma tag_syntax_errors_witness :
  compile_token "{% if a and b %}" fresh =
    Raise (StencilError "invalid syntax: if: '{% if a and b %}'")
  /\ compile_token "{% for x of xs %}" fresh =
     Raise (StencilError "invalid syntax: for: '{% for x of xs %}'")
  /\ compile_token "{% endif x %}" fresh =
     Raise (StencilError "invalid syntax: end: '{% endif x %}'").
Proof.
  destruct tag_syntax_errors as (Hif & Hfor & Hend).
  split; [|split].
  - refine (Hif "{% if a and b %}" ["a"; "and"; "b"] fresh eq_refl eq_refl _).
    cbn. lia.
  - refine (Hfor "{% for x of xs %}" ["x"; "of"; "xs"] fresh eq_refl eq_refl _).
    right. discriminate.
  - exact (Hend "{% endif x %}" "endif" "x" [] fresh eq_refl eq_refl eq_refl).
Defined.

Lemma compile_tag_if token e st st1 :
  tag_words token = ["if"; e] ->
  flush_output st = Ok (tt, st1) ->
  compile_tag token st =
  match first_refused (checked_names e) with
  | Some bad => Raise (StencilError ("invalid variable name: " ++ repr bad))
  | None =>
      Ok (tt, set_code (indent (add_line (LIf (expr_text e)) (code st1)))
                (set_all_vars (list_to_set (checked_names e) ∪ all_vars st1)
                   (set_ops_stack ("if" :: ops_stack st1) st1)))
  end.
Proof.
  intros Hw Hf. rewrite (compile_tag_words token st st1 Hf), Hw. cbv zeta.
  unfold bind at 1. cbn [word nth_error]. unfold ret at 1.
  cbn [String.eqb Ascii.eqb Bool.eqb len List.length Nat.eqb negb].
  unfold bind at 1. rewrite when_false.
  unfold bind at 1, ops_push at 1, modify at 1.
  unfold bind at 1. cbn [word nth_error]. unfold ret at 1.
  unfold bind at 1. rewrite _expr_code_outcome.
  destruct (first_refused (checked_names e)); reflexivity.
Qed.

(** X8.  A well-formed if tag followed by endif compiles, and leaves the
    ops stack and the indentation as they were: the pair adds the flushed
    buffer and one line, the header of the conditional at the indentation
    the block was opened at, and the buffer is empty after it. *)
Theorem if_block_round_trip t_if t_end e st :
  startswith "{%" t_if = true -> tag_words t_if = ["if"; e] ->
  first_refused (checked_names e) = None ->
  startswith "{%" t_end = true -> tag_words t_end = ["endif"] ->
  exists st1 st',
    flush_output st = Ok (tt, st1)
    /\ forM_ compile_token [t_if; t_end] st = Ok (tt, st')
    /\ ops_stack st' = ops_stack st
    /\ _indent (code st') = _indent (code st)
    /\ buffer st' = []
    /\ lines (code st') =
       (lines (code st1) ++ [(_indent (code st), LIf (expr_text e))])%list.
Proof.
  intros Hi Hwi He Ht Hwt.
  destruct (flush_output_shape st) as (st1 & Hf & _ & Hb & Hs & _ & Hind).
  exists st1. eexists. split; [exact Hf|].
  cbn [forM_]. unfold bind at 1.
  rewrite (tag_token_dispatch t_if Hi), (compile_tag_if t_if e st st1 Hwi Hf), He.
  unfold bind at 1. rewrite (tag_token_dispatch t_end Ht).
  match goal with |- context [compile_tag t_end ?s] => set (st2 := s) end.
  assert (Hf2 : flush_output st2 = Ok (tt, st2)).
  { unfold flush_output, bind, gets. subst st2. cbn [buffer set_code set_all_vars set_ops_stack].
    rewrite Hb. destruct st1; cbn in *; subst; reflexivity. }
  rewrite (compile_tag_end t_end "endif" st2 st2 Hwt eq_refl Hf2).
  subst st2. cbn [ops_stack set_code set_all_vars set_ops_stack drop String.eqb Ascii.eqb Bool.eqb].
  split; [reflexivity|]. cbn [ops_stack code buffer set_code set_ops_stack set_all_vars].
  split; [exact Hs|]. split.
  { cbn [dedent indent add_line _indent INDENT_STEP]. rewrite Hind. lia. }
  split; [exact Hb|].
  unfold dedent, indent. cbn [_code _indent INDENT_STEP add_line].
  rewrite (lines_blocks (code st1) [(_indent (code st1), LIf (expr_text e))]);
    [|reflexivity].
  rewrite Hind. reflexivity.
Qed.

Lemma if_block_round_trip_witness :
  exists st1 st',
    flush_output open_if = Ok (tt, st1)
    /\ forM_ compile_token ["{% if user.active|yes %}"; "{% endif %}"] open_if = Ok (tt, st')
    /\ ops_stack st' = ops_stack open_if
    /\ _indent (code st') = _indent (code open_if)
    /\ buffer st' = []
    /\ lines (code st') =
       (lines (code st1)
        ++ [(_indent (code open_if), LIf (expr_text "user.active|yes"))])%list.
Proof.
  exact (if_block_round_trip "{% if user.active|yes %}" "{% endif %}"
           "user.active|yes" open_if eq_refl eq_refl eq_refl eq_refl eq_refl).
Defined.

(** X9.  Compiling an expression that compiles changes nothing but
    all_vars, to which it adds the checked names; compiling it once more in
    the state reached returns the same code and the same state. *)
Theorem expr_code_is_idempotent expr st code st' :
  _expr_code expr st = Ok (code, st') ->
  _expr_code expr st' = Ok (code, st')
  /\ code = expr_text expr
  /\ all_vars st' = list_to_set (checked_names expr) ∪ all_vars st
  /\ st' = set_all_vars (all_vars st') st.
Proof.
  rewrite !_expr_code_outcome.
  destruct (first_refused (checked_names expr)); [discriminate|].
  intros [= <- <-]. rewrite all_vars_set_all_vars, set_all_vars_twice.
  split; [same_vars|]. repeat split.
Qed.

Lemma expr_code_is_idempotent_witness :
  _expr_code "a.b|f"
    (set_all_vars (list_to_set (checked_names "a.b|f") ∪ all_vars fresh) fresh) =
  Ok (expr_text "a.b|f",
      set_all_vars (list_to_set (checked_names "a.b|f") ∪ all_vars fresh) fresh).
Proof.
  refine (proj1 (expr_code_is_idempotent "a.b|f" fresh _ _ _)).
  exact (_expr_code_outcome "a.b|f" fresh).
Defined.

End ScanFacts.

(** ** More facts about the code emitter *)

Module BuilderFacts.
Import PyStr Py Builder Stencil StencilFacts TokenizerFacts.

Lemma add_lines_code ls : forall cb,
  _indent (add_lines ls cb) = _indent cb
  /\ INDENT_STEP (add_lines ls cb) = INDENT_STEP cb
  /\ _code (add_lines ls cb) = (_code cb ++ map (BLine (_indent cb)) ls)%list.
Proof.
  induction ls as [|l ls IH]; intros cb.
  - cbn. rewrite app_nil_r. auto.
  - change (add_lines (l :: ls) cb) with (add_lines ls (add_line l cb)).
    destruct (IH (add_line l cb)) as (-> & -> & ->). cbn [add_line _indent INDENT_STEP _code map].
    rewrite <- app_assoc. auto.
Qed.

Lemma section_add_line_middle pre sec post i s l :
  section_add_line (List.length pre) l (mkCodeBuilder i (pre ++ BSection sec :: post) s) =
  mkCodeBuilder i (pre ++ BSection (add_line l sec) :: post) s.
Proof.
  unfold section_add_line. cbn [_code _indent INDENT_STEP].
  rewrite (list_lookup_middle pre post (BSection sec) _ eq_refl).
  f_equal. rewrite insert_app_r_alt by lia. rewrite Nat.sub_diag. reflexivity.
Qed.

Lemma section_add_lines_middle ls : forall pre sec post i s,
  section_add_lines (List.length pre) ls (mkCodeBuilder i (pre ++ BSection sec :: post) s) =
  mkCodeBuilder i (pre ++ BSection (add_lines ls sec) :: post) s.
Proof.
  induction ls as [|l ls IH]; intros pre sec post i s; [reflexivity|].
  change (section_add_lines (List.length pre) (l :: ls) ?c)
    with (section_add_lines (List.length pre) ls (section_add_line (List.length pre) l c)).
  rewrite section_add_line_middle. apply IH.
Qed.

Lemma lines_of_blocks i (ls : list line) :
  concat (map block_lines (map (BLine i) ls)) = map (pair i) ls.
Proof. induction ls as [|l ls IH]; [reflexivity|]. cbn. rewrite IH. reflexivity. Qed.

Lemma apply_calls_code cs : forall i c s,
  apply_calls cs (mkCodeBuilder i c s) =
  mkCodeBuilder (_indent (apply_calls cs (mkCodeBuilder i [] s)))
    (c ++ _code (apply_calls cs (mkCodeBuilder i [] s))) s.
Proof.
  induction cs as [|k cs IH]; intros i c s.
  - cbn. rewrite app_nil_r. reflexivity.
  - change (apply_calls (k :: cs) ?b) with (apply_calls cs (apply_call k b)).
    destruct k; cbn [apply_call]; unfold add_line, indent, dedent;
      cbn [_indent _code INDENT_STEP app].
    + rewrite (IH i (c ++ [BLine i l])%list s), (IH i [BLine i l] s).
      cbn [_indent _code]. rewrite <- app_assoc. reflexivity.
    + rewrite (IH (i + s)%Z c s). reflexivity.
    + rewrite (IH (i - s)%Z c s). reflexivity.
Qed.

(** X10.  A section reserved with add_section and written to later keeps
    its place and its indentation: whatever lines, indents and dedents the
    builder gets after the reservation, the lines written into the section
    at the end stand in the source after the lines that were there when it
    was reserved and before every line added since, all of them at the
    indentation the builder had at the reservation; the later lines are
    the ones the same calls give on an empty builder started there.  With
    the builder at 8 after an indent, a line written into a section
    reserved at 4 stands at 4. *)
Theorem section_lines_stand_where_reserved :
  (forall (cb : CodeBuilder) (calls : list call) (prologue : list line),
      let ref := fst (add_section cb) in
      let later := apply_calls calls (snd (add_section cb)) in
      let alone := apply_calls calls (mkCodeBuilder (_indent cb) [] (INDENT_STEP cb)) in
      lines (section_add_lines ref prologue later) =
      (lines cb ++ map (pair (_indent cb)) prologue ++ lines alone)%list
      /\ _indent (section_add_lines ref prologue later) = _indent alone)
  /\ (let cb := indent (add_line LDef (new 0)) in
      let later := apply_calls [AddLine LResult; Indent; AddLine LReturn]
                     (snd (add_section cb)) in
      _indent cb = 4%Z /\ _indent later = 8%Z
      /\ lines (section_add_lines (fst (add_section cb)) [LBind "x"] later) =
         [(0, LDef); (4, LBind "x"); (4, LResult); (8, LReturn)]%Z).
Proof.
  split; [|vm_compute; repeat split; reflexivity].
  intros cb calls prologue. cbv zeta. cbn [add_section fst snd].
  rewrite apply_calls_code.
  set (alone := apply_calls calls (mkCodeBuilder (_indent cb) [] (INDENT_STEP cb))).
  rewrite <- app_assoc. cbn [app].
  rewrite section_add_lines_middle. split; [|reflexivity].
  rewrite lines_concat. cbn [_code].
  rewrite map_app, concat_app. cbn [map concat block_lines].
  rewrite <- !lines_concat. f_equal. f_equal.
  destruct (add_lines_code prologue (new (_indent cb))) as (_ & _ & Hp).
  rewrite lines_concat, Hp. cbn [new _code _indent app]. apply lines_of_blocks.
Qed.

Lemma concat_cons_string (x : string) (xs : list string) :
  String.concat EmptyString (x :: xs) = x ++ String.concat EmptyString xs.
Proof.
  destruct xs as [|y ys]; [cbn [String.concat]; symmetry; apply append_empty_r|].
  reflexivity.
Qed.

Lemma concat_app_string (xs ys : list string) :
  String.concat EmptyString (xs ++ ys) =
  String.concat EmptyString xs ++ String.concat EmptyString ys.
Proof.
  induction xs as [|x xs IH]; [reflexivity|].
  cbn [app]. rewrite !concat_cons_string, IH, append_assoc. reflexivity.
Qed.

(** X11.  add_line adds to the source text exactly one line: the current
    indentation in spaces, the line and a newline. *)
Theorem add_line_appends_one_line (l : line) (cb : CodeBuilder) :
  source (add_line l cb) =
  source cb ++ spaces (_indent cb) ++ line_text l ++ chr newline.
Proof.
  unfold source. rewrite lines_add_line, map_app, concat_app_string.
  cbn [map]. rewrite concat_cons_string. cbn [String.concat].
  rewrite append_empty_r. reflexivity.
Qed.

End BuilderFacts.

(** ** More facts about construction and rendering *)

Module TemplateFacts.
Import PyStr Py Builder Host.
Import Runtime RuntimeFacts ScanFacts.

Section TemplateValues.
Context {value : Type} `{PyObject value}.

Lemma merge_contexts_app (h : heap (value := value)) cs1 : forall acc cs2,
  merge_contexts h acc (cs1 ++ cs2) =
  rbind (merge_contexts h acc cs1) (fun m => merge_contexts h m cs2).
Proof.
  induction cs1 as [|c cs1 IH]; intros acc cs2; [reflexivity|].
  cbn [app merge_contexts]. destruct (get_dict h c) as [d|e]; [|reflexivity].
  cbn [rbind]. apply IH.
Qed.

(** Contexts that do not hold a key leave its entry as it is. *)
Lemma merge_contexts_absent (h : heap (value := value)) k cs : forall acc m,
  merge_contexts h acc cs = Ok m ->
  (forall c d, In c cs -> h !! c = Some (ODict d) -> d !! k = None) ->
  m !! k = acc !! k.
Proof.
  induction cs as [|c cs IH]; intros acc m Hm Habs.
  - injection Hm as <-. reflexivity.
  - cbn [merge_contexts] in Hm. destruct (get_dict h c) as [d|e] eqn:Ed; [|discriminate].
    cbn [rbind] in Hm. apply get_dict_Ok in Ed.
    rewrite (IH _ _ Hm); [|intros c' d' Hin; apply Habs; right; exact Hin].
    apply lookup_union_r. apply (Habs c d); [left; reflexivity | exact Ed].
Qed.

(** X12.  Merging the contexts of a construction: the value a context gives
    a key is the value of the merged mapping unless a later context holds
    the key too. *)
Theorem later_context_overrides (h : heap (value := value)) cs1 c cs2 acc m d k v :
  merge_contexts h acc (cs1 ++ c :: cs2) = Ok m ->
  h !! c = Some (ODict d) ->
  d !! k = Some v ->
  (forall c' d', In c' cs2 -> h !! c' = Some (ODict d') -> d' !! k = None) ->
  m !! k = Some v.
Proof.
  intros Hm Hc Hk Hlater. rewrite merge_contexts_app in Hm.
  destruct (merge_contexts h acc cs1) as [m1|e]; [|discriminate].
  cbn [rbind merge_contexts] in Hm.
  rewrite (proj2 (get_dict_Ok h c d) Hc) in Hm. cbn [rbind] in Hm.
  rewrite (merge_contexts_absent h k cs2 _ _ Hm Hlater).
  apply lookup_union_Some_l. exact Hk.
Qed.

Lemma lookup_new_first (l : heap (value := value)) (a b : object) :
  (l ++ [a; b])%list !! List.length l = Some a.
Proof. apply list_lookup_middle. reflexivity. Qed.

Lemma lookup_new_second (l : heap (value := value)) (a b : object) :
  (l ++ [a; b])%list !! S (List.length l) = Some b.
Proof.
  change (l ++ [a; b])%list with (l ++ [a] ++ [b])%list. rewrite app_assoc.
  apply list_lookup_middle. rewrite length_app. cbn. lia.
Qed.

Lemma init_inv text contexts (h : heap (value := value)) ref h' :
  __init__ text contexts h = Ok (ref, h') ->
  exists base r st,
    merge_contexts h ∅ contexts = Ok base
    /\ Stencil._compile_template text Stencil.fresh = Ok (r, st)
    /\ h' = (h ++ [ODict base;
                   OTemplate (mkTemplate (List.length h) (Stencil.all_vars st)
                                (Stencil.loop_vars st) r)])%list
    /\ ref = S (List.length h).
Proof.
  unfold __init__. destruct (merge_contexts h ∅ contexts) as [base|e]; [|discriminate].
  cbn [rbind]. destruct (Stencil._compile_template text Stencil.fresh) as [[r st]|e] eqn:E;
    [|discriminate].
  intros [= <- <-]. exists base, r, st. split; [reflexivity|]. split; [reflexivity|].
  split; [rewrite <- app_assoc; reflexivity|]. rewrite length_app. cbn. lia.
Qed.

(** X13.  A construction that succeeds changes no object of the store,
    the contexts it was given included: it adds the merged base context and
    the template that refers to it, and the template has referenced no
    name (all_vars and loop_vars are empty). *)
Theorem init_adds_context_and_template text contexts (h : heap (value := value)) ref h' :
  __init__ text contexts h = Ok (ref, h') ->
  exists base t,
    merge_contexts h ∅ contexts = Ok base
    /\ h' = (h ++ [ODict base; OTemplate t])%list
    /\ ref = S (List.length h)
    /\ context t = List.length h
    /\ all_vars t = ∅ /\ loop_vars t = ∅
    /\ (forall a obj, h !! a = Some obj -> h' !! a = Some obj).
Proof.
  intros Hi. destruct (init_inv _ _ _ _ _ Hi) as (base & r & st & Hm & Hc & -> & ->).
  destruct (compiled_template_has_no_names _ _ _ Hc) as (Ha & Hl & _).
  eexists. eexists. split; [exact Hm|]. split; [reflexivity|].
  split; [reflexivity|]. split; [reflexivity|]. cbn [all_vars loop_vars].
  split; [exact Ha|]. split; [exact Hl|].
  intros a obj Hl'. apply lookup_app_l_Some. exact Hl'.
Qed.

(** X14.  No template that was constructed renders: with or without a
    per-call dict, render raises UnboundLocalError, because the body of
    every compiled render reads str in str = str before it is assigned. *)
Theorem constructed_template_never_renders text contexts (h : heap (value := value)) ref h' :
  __init__ text contexts h = Ok (ref, h') ->
  fst (render ref None h') = Raise UnboundLocalError
  /\ (forall c d, h' !! c = Some (ODict d) ->
                  fst (render ref (Some c) h') = Raise UnboundLocalError).
Proof.
  intros Hi. destruct (init_inv _ _ _ _ _ Hi) as (base & r & st & Hm & Hc & -> & ->).
  destruct (compiled_body _ _ _ _ Hc) as (rest & ->).
  split.
  - unfold render. rewrite lookup_new_second. cbn [context].
    rewrite (proj2 (get_dict_Ok _ _ base) (lookup_new_first h _ _)). reflexivity.
  - intros c d Hd. unfold render. rewrite lookup_new_second. cbn [context].
    rewrite (proj2 (get_dict_Ok _ _ base) (lookup_new_first h _ _)).
    rewrite (proj2 (get_dict_Ok _ c d) Hd). reflexivity.
Qed.

(** X15.  The per-call context that render builds holds the caller's value
    for every key of the caller's dict, and the value of the base context
    for every other key. *)
Theorem render_context_overrides_base self c (h : heap (value := value)) t base d :
  h !! self = Some (OTemplate t) ->
  h !! context t = Some (ODict base) ->
  h !! c = Some (ODict d) ->
  exists render_ctx,
    snd (render self (Some c) h) !! List.length h = Some (ODict render_ctx)
    /\ (forall k v, d !! k = Some v -> render_ctx !! k = Some v)
    /\ (forall k, d !! k = None -> render_ctx !! k = base !! k).
Proof.
  intros Hs Hb Hd. pose proof (render_overlay self (Some c) h t base Hs Hb d Hd) as ->.
  exists (d ∪ base). split; [apply list_lookup_middle; reflexivity|]. split.
  - intros k v Hk. apply lookup_union_Some_l. exact Hk.
  - intros k Hk. apply lookup_union_r. exact Hk.
Qed.

(** X16.  render with an empty dict is render with no dict: the same
    result and the same store. *)
Theorem render_with_empty_context self c (h : heap (value := value)) :
  h !! c = Some (ODict ∅) ->
  render self (Some c) h = render self None h.
Proof.
  intros Hc. unfold render. destruct (h !! self) as [[?|t]|]; try reflexivity.
  destruct (get_dict h (context t)) as [base|e]; [|reflexivity].
  rewrite (proj2 (get_dict_Ok h c ∅) Hc).
  destruct (decide (∅ = ∅)) as [_|Hne]; [reflexivity | contradiction].
Qed.

End TemplateValues.


Lemma later_context_overrides_witness :
  ({["x" := VStr "2"]} ∪ ({["x" := VStr "1"]} ∪ ∅) : gmap string pyval) !! "x"
  = Some (VStr "2").
Proof.
  refine (later_context_overrides two_contexts [0] 1 [] ∅ _
            {["x" := VStr "2"]} "x" (VStr "2") eq_refl eq_refl eq_refl _).
  intros c' d' [].
Defined.

Lemma init_adds_context_and_template_witness :
  exists ref h' base t,
    __init__ "hello" [0; 1] two_contexts = Ok (ref, h')
    /\ merge_contexts two_contexts ∅ [0; 1] = Ok base
    /\ h' = (two_contexts ++ [ODict base; OTemplate t])%list
    /\ ref = 3.
Proof.
  destruct (__init__ "hello" [0; 1] two_contexts) as [[ref h']|e] eqn:E.
  - destruct (init_adds_context_and_template "hello" [0; 1] two_contexts ref h' E)
      as (base & t & Hm & Hh & Hr & _).
    exists ref, h', base, t. repeat split; assumption.
  - vm_compute in E. discriminate.
Defined.

Lemma constructed_template_never_renders_witness :
  exists ref h',
    __init__ "hello" [0] two_contexts = Ok (ref, h')
    /\ fst (render ref None h') = Raise UnboundLocalError.
Proof.
  destruct (__init__ "hello" [0] two_contexts) as [[ref h']|e] eqn:E.
  - exists ref, h'. split; [reflexivity|].
    exact (proj1 (constructed_template_never_renders "hello" [0] two_contexts ref h' E)).
  - vm_compute in E. discriminate.
Defined.

Lemma render_context_overrides_base_witness :
  exists render_ctx,
    snd (render 1 (Some 2) sample_heap) !! 3 = Some (ODict render_ctx)
    /\ (forall k v, ({["y" := VStr "yo"]} : gmap string pyval) !! k = Some v ->
                    render_ctx !! k = Some v)
    /\ (forall k, ({["y" := VStr "yo"]} : gmap string pyval) !! k = None ->
                  render_ctx !! k = ({["x" := VStr "hi"]} : gmap string pyval) !! k).
Proof.
  exact (render_context_overrides_base 1 2 sample_heap _ _ _ eq_refl eq_refl eq_refl).
Defined.

Lemma render_with_empty_context_witness :
  render 1 (Some 2) heap_with_empty_dict = render 1 None heap_with_empty_dict.
Proof. exact (render_with_empty_context 1 2 heap_with_empty_dict eq_refl). Defined.

End TemplateFacts.
